(** * ESP32 BLE LED controller: a model of [firmware/ESP32_BLE_Blink/src/main.cpp]

    The sketch keeps three global flags, drives one GPIO pin and talks to the
    platform's BLE stack and serial port.  The program variables and the
    hardware it owns form the [Machine]; everything sent to the platform
    (serial text, notifications, advertising requests) is appended to a
    time-stamped trace.  The code is written in a small state monad over the
    [World] so that each definition reads like the C++ function it embeds. *)

From Stdlib Require Import NArith Lia.
From stdpp Require Import base gmap strings list.

Local Open Scope N_scope.

(** ** Platform vocabulary *)

(** [HIGH] and [LOW] of Arduino.h. *)
Inductive Level := LOW | HIGH.

(** The only pin mode the sketch uses. *)
Inductive PinMode := OUTPUT.

(** [BLECharacteristic::PROPERTY_*], as far as the sketch names them. *)
Inductive Property := PROPERTY_READ | PROPERTY_WRITE | PROPERTY_NOTIFY.

(** Requests handed to the platform; the platform is opaque, so a call is
    recorded with the arguments the code passes. *)
Inductive Output :=
| SerialBegin (baud : N)
| SerialPrint (text : string)
| SerialPrintln (text : string)
| BLEInit (deviceName : string)
| CreateServer
| CreateService (uuid : string)
| CreateCharacteristic (uuid : string) (props : list Property)
| AddDescriptor2902
| ServiceStart
| AddServiceUUID (uuid : string)
| SetScanResponse (enabled : bool)
| SetMinPreferred (v : N)
| Notify (value : string)
| StartAdvertising.

(** ** Configuration constants (main.cpp lines 8-12) *)

Definition SERVICE_UUID : string := "12345678-1234-1234-1234-123456789abc".
Definition CHARACTERISTIC_UUID : string := "87654321-4321-4321-4321-cba987654321".
Definition LED_PIN : N := 2.

(** ** State *)

(** Globals of lines 15-21, the GPIO registers and the value stored in the one
    characteristic that [setup] creates ([pCharacteristic] and the parameter of
    [onWrite] both designate it). *)
Record Machine := mkMachine {
  deviceConnected : bool;
  oldDeviceConnected : bool;
  ledState : bool;
  gpio_mode : gmap N PinMode;
  gpio_out : gmap N Level;
  gatt_value : string
}.

Record World := mkWorld {
  mach : Machine;
  clock : N;                      (* milliseconds since power-on *)
  trace : list (N * Output)       (* oldest first *)
}.

(** Power-on: the initialisers of lines 17, 18 and 21; no pin configured. *)
Definition power_on : World :=
  {| mach := {| deviceConnected := false; oldDeviceConnected := false;
                ledState := false; gpio_mode := ∅; gpio_out := ∅;
                gatt_value := "" |};
     clock := 0; trace := [] |}.

(** Level seen on a pin: the output latch, when the pin is an output. *)
Definition pin_output (m : Machine) (pin : N) : option Level :=
  match gpio_mode m !! pin with
  | Some OUTPUT => gpio_out m !! pin
  | None => None
  end.

(** [b ? HIGH : LOW] *)
Definition level_of (b : bool) : Level := if b then HIGH else LOW.

(** ** The state monad *)

Definition M (A : Type) : Type := World -> A * World.

Definition ret {A} (a : A) : M A := fun w => (a, w).
Definition bind {A B} (c : M A) (k : A -> M B) : M B :=
  fun w => let (a, w') := c w in k a w'.
Definition exec {A} (c : M A) (w : World) : World := snd (c w).

Notation "x <- c ;; k" := (bind c (fun x => k))
  (at level 100, c at next level, right associativity).
Notation "c ;; k" := (bind c (fun _ => k))
  (at level 100, right associativity).

Definition read {A} (f : Machine -> A) : M A := fun w => (f (mach w), w).
Definition modify (f : Machine -> Machine) : M unit :=
  fun w => (tt, {| mach := f (mach w); clock := clock w; trace := trace w |}).
Definition emit (o : Output) : M unit :=
  fun w => (tt, {| mach := mach w; clock := clock w;
                   trace := trace w ++ [(clock w, o)] |}).
Definition now : M N := fun w => (clock w, w).
Definition set_clock (t : N) : M unit :=
  fun w => (tt, {| mach := mach w; clock := t; trace := trace w |}).

(** Assignments to the globals. *)
Definition set_deviceConnected (b : bool) (m : Machine) : Machine :=
  {| deviceConnected := b; oldDeviceConnected := oldDeviceConnected m;
     ledState := ledState m; gpio_mode := gpio_mode m; gpio_out := gpio_out m;
     gatt_value := gatt_value m |}.
Definition set_oldDeviceConnected (b : bool) (m : Machine) : Machine :=
  {| deviceConnected := deviceConnected m; oldDeviceConnected := b;
     ledState := ledState m; gpio_mode := gpio_mode m; gpio_out := gpio_out m;
     gatt_value := gatt_value m |}.
Definition set_ledState (b : bool) (m : Machine) : Machine :=
  {| deviceConnected := deviceConnected m;
     oldDeviceConnected := oldDeviceConnected m;
     ledState := b; gpio_mode := gpio_mode m; gpio_out := gpio_out m;
     gatt_value := gatt_value m |}.
Definition set_gpio_mode (g : gmap N PinMode) (m : Machine) : Machine :=
  {| deviceConnected := deviceConnected m;
     oldDeviceConnected := oldDeviceConnected m;
     ledState := ledState m; gpio_mode := g; gpio_out := gpio_out m;
     gatt_value := gatt_value m |}.
Definition set_gpio_out (g : gmap N Level) (m : Machine) : Machine :=
  {| deviceConnected := deviceConnected m;
     oldDeviceConnected := oldDeviceConnected m;
     ledState := ledState m; gpio_mode := gpio_mode m; gpio_out := g;
     gatt_value := gatt_value m |}.
Definition set_gatt_value (v : string) (m : Machine) : Machine :=
  {| deviceConnected := deviceConnected m;
     oldDeviceConnected := oldDeviceConnected m;
     ledState := ledState m; gpio_mode := gpio_mode m; gpio_out := gpio_out m;
     gatt_value := v |}.

(** ** Platform calls used by the sketch *)

Module Serial.
Definition begin (baud : N) : M unit := emit (SerialBegin baud).
Definition print (text : string) : M unit := emit (SerialPrint text).
Definition println (text : string) : M unit := emit (SerialPrintln text).
End Serial.

Definition pinMode (pin : N) (mode : PinMode) : M unit :=
  modify (fun m => set_gpio_mode (<[pin := mode]> (gpio_mode m)) m).
Definition digitalWrite (pin : N) (val : Level) : M unit :=
  modify (fun m => set_gpio_out (<[pin := val]> (gpio_out m)) m).

(** [pCharacteristic->getValue()], [->setValue(v)] and [->notify()]; a
    notification carries the value stored in the characteristic when
    [notify] is called. *)
Definition getValue : M string := read gatt_value.
Definition setValue (v : string) : M unit := modify (set_gatt_value v).
Definition notify : M unit := v <- getValue ;; emit (Notify v).

(** [for (int i = 0; i < rxValue.length(); i++) body(rxValue[i])], for the
    payload lengths a GATT write can carry (far below [INT_MAX]). *)
Fixpoint for_each_char (s : string) (body : Ascii.ascii -> M unit) : M unit :=
  match s with
  | EmptyString => ret tt
  | String c rest => body c ;; for_each_char rest body
  end.

(** ** Connection callbacks (lines 23-33) *)

Definition onConnect : M unit :=
  modify (set_deviceConnected true) ;;
  Serial.println "Device connected".

Definition onDisconnect : M unit :=
  modify (set_deviceConnected false) ;;
  Serial.println "Device disconnected".

(** ** Write callback (lines 35-71) *)

Definition onWrite : M unit :=
  rxValue <- getValue ;;
  if 0 <? N.of_nat (String.length rxValue) then
    Serial.println "Received: " ;;
    for_each_char rxValue (fun c => Serial.print (String c EmptyString)) ;;
    Serial.println "" ;;
    if String.eqb rxValue "ON" then
      digitalWrite LED_PIN HIGH ;;
      modify (set_ledState true) ;;
      Serial.println "LED turned ON"
    else if String.eqb rxValue "OFF" then
      digitalWrite LED_PIN LOW ;;
      modify (set_ledState false) ;;
      Serial.println "LED turned OFF"
    else if String.eqb rxValue "TOGGLE" then
      s <- read ledState ;;
      modify (set_ledState (negb s)) ;;
      s <- read ledState ;;
      digitalWrite LED_PIN (level_of s) ;;
      s <- read ledState ;;
      Serial.println (if s then "LED toggled ON" else "LED toggled OFF")
    else if String.eqb rxValue "STATUS" then
      s <- read ledState ;;
      let status := if s then "LED_ON" else "LED_OFF" in
      setValue status ;;
      notify ;;
      Serial.println ("Status sent: " +:+ status)
    else ret tt
  else ret tt.

(** ** Events delivered by the BLE stack *)

(** The stack calls [onConnect] and [onDisconnect] on link changes; on a GATT
    write it stores the written bytes in the characteristic and then calls
    [onWrite], which is why line 37 finds the payload with [getValue]. *)
Inductive Event :=
| Connect
| Disconnect
| Write (payload : string).

Definition deliver (ev : Event) : M unit :=
  match ev with
  | Connect => onConnect
  | Disconnect => onDisconnect
  | Write payload => setValue payload ;; onWrite
  end.

(** What the platform does while the sketch sits in a [delay]: callbacks run,
    each [gap] milliseconds after the previous one, and the call may return
    [lateness] milliseconds after the requested time. *)
Record Interval := mkInterval {
  arrivals : list (N * Event);
  lateness : N
}.

Definition quiet : Interval := {| arrivals := []; lateness := 0 |}.

Fixpoint deliver_all (evs : list (N * Event)) : M unit :=
  match evs with
  | [] => ret tt
  | (gap, ev) :: rest =>
      t <- now ;; set_clock (t + gap) ;; deliver ev ;; deliver_all rest
  end.

(** [delay(ms)]: returns no earlier than [ms] milliseconds after the call. *)
Definition delay (ms : N) (iv : Interval) : M unit :=
  t0 <- now ;;
  deliver_all (arrivals iv) ;;
  t1 <- now ;;
  set_clock (N.max t1 (t0 + ms) + lateness iv).

(** ** [setup] (lines 73-111) *)

(** The two [setCallbacks] calls (lines 84 and 97) hand the callback objects
    to the stack; from then on the stack runs them, which is [deliver]. *)

Definition setup : M unit :=
  Serial.begin 115200 ;;
  Serial.println "Starting ESP32 BLE LED Control" ;;
  pinMode LED_PIN OUTPUT ;;
  digitalWrite LED_PIN LOW ;;
  emit (BLEInit "ESP32_LED_Controller") ;;
  emit CreateServer ;;
  emit (CreateService SERVICE_UUID) ;;
  emit (CreateCharacteristic CHARACTERISTIC_UUID
          [PROPERTY_READ; PROPERTY_WRITE; PROPERTY_NOTIFY]) ;;
  setValue "Hello World" ;;
  emit AddDescriptor2902 ;;
  emit ServiceStart ;;
  emit (AddServiceUUID SERVICE_UUID) ;;
  emit (SetScanResponse false) ;;
  emit (SetMinPreferred 0) ;;
  emit StartAdvertising ;;
  Serial.println "Waiting for a client connection to notify...".

(** The world in which the first callback or [loop] iteration runs. *)
Definition boot : World := exec setup power_on.

(** ** [loop] (lines 113-129) *)

(** Lines 115-120. *)
Definition handle_disconnection (settle : Interval) : M unit :=
  dc <- read deviceConnected ;;
  odc <- read oldDeviceConnected ;;
  if negb dc && odc then
    delay 500 settle ;;
    emit StartAdvertising ;;
    Serial.println "Start advertising" ;;
    dc <- read deviceConnected ;;
    modify (set_oldDeviceConnected dc)
  else ret tt.

(** Lines 123-126. *)
Definition handle_connection : M unit :=
  dc <- read deviceConnected ;;
  odc <- read oldDeviceConnected ;;
  if dc && negb odc then
    dc <- read deviceConnected ;;
    modify (set_oldDeviceConnected dc)
  else ret tt.

(** One iteration; [settle] and [idle] say what happens during the two
    delays. *)
Definition loop (settle idle : Interval) : M unit :=
  handle_disconnection settle ;;
  handle_connection ;;
  delay 10 idle.

Fixpoint loops (its : list (Interval * Interval)) : M unit :=
  match its with
  | [] => ret tt
  | (settle, idle) :: rest => loop settle idle ;; loops rest
  end.

(** ** Observations *)

(** Outputs produced between two worlds of one run. *)
Definition emitted (w w' : World) : list (N * Output) :=
  drop (length (trace w)) (trace w').

Definition notifications (tr : list (N * Output)) : list string :=
  omap (fun e => match snd e with Notify v => Some v | _ => None end) tr.

Definition serial_log (tr : list (N * Output)) : list Output :=
  omap (fun e => match snd e with
                 | SerialPrint s => Some (SerialPrint s)
                 | SerialPrintln s => Some (SerialPrintln s)
                 | _ => None
                 end) tr.

Definition advertising_times (tr : list (N * Output)) : list N :=
  omap (fun e => match snd e with StartAdvertising => Some (fst e) | _ => None end) tr.


(** ** Vocabulary of the properties *)

(** The four tokens compared at lines 47, 52, 57 and 62. *)
Definition recognised (p : string) : Prop :=
  p = "ON" \/ p = "OFF" \/ p = "TOGGLE" \/ p = "STATUS".

(** The payloads that change the LED. *)
Definition led_command (p : string) : Prop :=
  p = "ON" \/ p = "OFF" \/ p = "TOGGLE".

(** Semantics of the LED commands as the specification words it:
    ON gives true, OFF gives false, TOGGLE negates. *)
Definition led_fold_step (s : bool) (p : string) : bool :=
  if String.eqb p "ON" then true
  else if String.eqb p "OFF" then false
  else if String.eqb p "TOGGLE" then negb s
  else s.

(** The status strings of line 64. *)
Definition status_text (s : bool) : string := if s then "LED_ON" else "LED_OFF".

(** The pin mirrors the flag. *)
Definition led_mirrors (m : Machine) : Prop :=
  pin_output m LED_PIN = Some (level_of (ledState m)).

(** Outputs stamped with one instant. *)
Definition stamp (t : N) (outs : list Output) : list (N * Output) :=
  map (pair t) outs.

(** The echo of lines 40-44. *)
Definition echo (p : string) : list Output :=
  SerialPrintln "Received: "
  :: map (fun c => SerialPrint (String c EmptyString)) (String.list_ascii_of_string p)
  ++ [SerialPrintln ""].

(** A world with more outputs, all at the current instant. *)
Definition say (outs : list Output) (w : World) : World :=
  {| mach := mach w; clock := clock w;
     trace := trace w ++ stamp (clock w) outs |}.

(** Deliver the write payloads in order. *)
Fixpoint write_all (cmds : list string) : M unit :=
  match cmds with
  | [] => ret tt
  | p :: rest => deliver (Write p) ;; write_all rest
  end.

(** The worlds seen before the first and after each write of [cmds]. *)
Fixpoint observe (cmds : list string) (w : World) : list World :=
  w :: match cmds with
       | [] => []
       | p :: rest => observe rest (exec (deliver (Write p)) w)
       end.

(** Operations that can run between two observation points. *)
Inductive Operation :=
| Callback (ev : Event)
| Iteration (settle idle : Interval).

Definition perform (op : Operation) : M unit :=
  match op with
  | Callback ev => deliver ev
  | Iteration settle idle => loop settle idle
  end.

Fixpoint perform_all (ops : list Operation) : M unit :=
  match ops with
  | [] => ret tt
  | op :: rest => perform op ;; perform_all rest
  end.

(** No connect event, respectively no link event at all, during a delay. *)
Definition is_connect (ev : Event) : bool :=
  match ev with Connect => true | _ => false end.
Definition is_link_event (ev : Event) : bool :=
  match ev with Connect | Disconnect => true | Write _ => false end.
Definition no_connect (iv : Interval) : Prop :=
  Forall (fun a => is_connect (snd a) = false) (arrivals iv).
Definition link_quiet (iv : Interval) : Prop :=
  Forall (fun a => is_link_event (snd a) = false) (arrivals iv).

(** What any callback leaves alone: time does not go back, [loop]'s own flag
    is untouched, the trace only grows and gains no advertising request, and
    the pin keeps mirroring [ledState]. *)
Record callback_frame (w w' : World) : Prop := mkFrame {
  frame_clock : clock w <= clock w';
  frame_old : oldDeviceConnected (mach w') = oldDeviceConnected (mach w);
  frame_trace : exists d, trace w' = trace w ++ d /\ advertising_times d = [];
  frame_led : led_mirrors (mach w) -> led_mirrors (mach w')
}.

(** A world in which [loop] is about to see a lost link: a client connected,
    one iteration recorded it, and the client went away. *)
Definition link_lost : World :=
  exec (perform_all [Callback Connect; Iteration quiet quiet; Callback Disconnect])
    boot.

(** A settle delay during which the client comes back after 120 ms. *)
Definition reconnecting : Interval :=
  {| arrivals := [(120, Connect)]; lateness := 0 |}.

(** A settle delay that sees a write and returns 3 ms late. *)
Definition busy : Interval :=
  {| arrivals := [(30, Write "STATUS")]; lateness := 3 |}.

(** ** Vocabulary of the further properties *)

(** The notifications a sequence of writes must produce when the LED starts
    in state [s]: one status string per STATUS payload, in order. *)
Fixpoint status_replies (cmds : list string) (s : bool) : list string :=
  match cmds with
  | [] => []
  | p :: rest =>
      (if String.eqb p "STATUS" then [status_text s] else [])
      ++ status_replies rest (led_fold_step s p)
  end.

(** The text written with [Serial.print] (not [println]), concatenated. *)
Fixpoint printed_text (tr : list (N * Output)) : string :=
  match tr with
  | [] => ""
  | (_, SerialPrint s) :: rest => s +:+ printed_text rest
  | _ :: rest => printed_text rest
  end.

(** Delays and operations whose callbacks all satisfy [ok]. *)
Definition interval_within (ok : Event -> bool) (iv : Interval) : Prop :=
  Forall (fun a => ok (snd a) = true) (arrivals iv).

Definition operation_within (ok : Event -> bool) (op : Operation) : Prop :=
  match op with
  | Callback ev => ok ev = true
  | Iteration settle idle => interval_within ok settle /\ interval_within ok idle
  end.

Definition any_event (ev : Event) : bool := true.

(** The test of line 115. *)
Definition link_was_lost (m : Machine) : bool :=
  negb (deviceConnected m) && oldDeviceConnected m.

(** Counters read off the trace: advertising requests, and the lines that
    [onDisconnect] prints. *)
Definition advertising_requests (tr : list (N * Output)) : nat :=
  length (advertising_times tr).

Fixpoint disconnect_reports (tr : list (N * Output)) : nat :=
  match tr with
  | [] => 0
  | (_, SerialPrintln s) :: rest =>
      (if String.eqb s "Device disconnected" then 1 else 0)
      + disconnect_reports rest
  | _ :: rest => disconnect_reports rest
  end%nat.

(** One advertising request is owed while the link is seen as lost. *)
Definition owed (m : Machine) : nat := if link_was_lost m then 1%nat else 0%nat.

(** What a callback does to the counters: no advertising request, and the
    owed request appears only together with a disconnect report. *)
Definition callback_counts (w w' : World) : Prop :=
  (advertising_requests (trace w') = advertising_requests (trace w) /\
   disconnect_reports (trace w) <= disconnect_reports (trace w') /\
   owed (mach w') + disconnect_reports (trace w)
     <= owed (mach w) + disconnect_reports (trace w'))%nat.

(** Since [w0], requests issued or owed are covered by disconnect reports. *)
Definition advertising_covered (w0 w : World) : Prop :=
  (advertising_requests (trace w) + owed (mach w) + disconnect_reports (trace w0)
   <= advertising_requests (trace w0) + owed (mach w0)
      + disconnect_reports (trace w))%nat.

(** A succession of link events: [true] is a connect, [false] a disconnect. *)
Definition link_event (b : bool) : Event := if b then Connect else Disconnect.

Fixpoint deliver_links (bs : list bool) : M unit :=
  match bs with
  | [] => ret tt
  | b :: rest => deliver (link_event b) ;; deliver_links rest
  end.

(** * Properties *)

(** ** Sanity checks of the model *)

Example boot_machine :
  ledState (mach boot) = false /\ pin_output (mach boot) LED_PIN = Some LOW /\
  gatt_value (mach boot) = "Hello World" /\ advertising_times (trace boot) = [0].
Proof. vm_compute. auto. Qed.


(** ** The monad and the trace *)

Lemma exec_bind {A B} (c : M A) (k : A -> M B) w :
  exec (bind c k) w = exec (k (fst (c w))) (snd (c w)).
Proof. unfold exec, bind. destruct (c w); reflexivity. Qed.

Lemma exec_seq {A} (c : M unit) (k : M A) w :
  exec (c ;; k) w = exec k (exec c w).
Proof. rewrite exec_bind. reflexivity. Qed.

Lemma emitted_app w w' d : trace w' = trace w ++ d -> emitted w w' = d.
Proof. unfold emitted. intros ->. apply drop_app_length. Qed.

Lemma say_nil w : say [] w = w.
Proof. destruct w; unfold say, stamp; simpl. by rewrite app_nil_r. Qed.

Lemma notifications_stamp t outs :
  notifications (stamp t outs) =
  omap (fun o => match o with Notify v => Some v | _ => None end) outs.
Proof.
  unfold notifications, stamp. induction outs as [|o outs IH]; [done|].
  destruct o; cbn [map omap list_omap snd]; by rewrite IH.
Qed.


(** ** The write callback, case by case *)

Lemma for_each_char_print s w :
  exec (for_each_char s (fun c => Serial.print (String c EmptyString))) w =
  say (map (fun c => SerialPrint (String c EmptyString))
         (String.list_ascii_of_string s)) w.
Proof.
  revert w. induction s as [|c s IH]; intros w.
  - by rewrite say_nil.
  - simpl. rewrite exec_seq, IH. destruct w as [m t tr].
    unfold say, stamp, exec; simpl. by rewrite <- app_assoc.
Qed.

Lemma payload_cases (p : string) :
  p = "" \/ recognised p \/ (p <> "" /\ ~ recognised p).
Proof.
  destruct (decide (p = "")) as [->|Hne]; [by left|right].
  destruct (decide (p = "ON")) as [->|?]; [left; unfold recognised; tauto|].
  destruct (decide (p = "OFF")) as [->|?]; [left; unfold recognised; tauto|].
  destruct (decide (p = "TOGGLE")) as [->|?]; [left; unfold recognised; tauto|].
  destruct (decide (p = "STATUS")) as [->|?]; [left; unfold recognised; tauto|].
  right. unfold recognised. tauto.
Qed.

Lemma write_empty w :
  exec (deliver (Write "")) w =
  {| mach := set_gatt_value "" (mach w); clock := clock w; trace := trace w |}.
Proof. reflexivity. Qed.

Lemma write_ON w :
  exec (deliver (Write "ON")) w =
  say (echo "ON" ++ [SerialPrintln "LED turned ON"])
    {| mach := set_ledState true
                 (set_gpio_out (<[LED_PIN := HIGH]> (gpio_out (mach w)))
                    (set_gatt_value "ON" (mach w)));
       clock := clock w; trace := trace w |}.
Proof.
  destruct w as [m t tr]. unfold say, exec; simpl. by rewrite <- !app_assoc.
Qed.

Lemma write_OFF w :
  exec (deliver (Write "OFF")) w =
  say (echo "OFF" ++ [SerialPrintln "LED turned OFF"])
    {| mach := set_ledState false
                 (set_gpio_out (<[LED_PIN := LOW]> (gpio_out (mach w)))
                    (set_gatt_value "OFF" (mach w)));
       clock := clock w; trace := trace w |}.
Proof.
  destruct w as [m t tr]. unfold say, exec; simpl. by rewrite <- !app_assoc.
Qed.

Lemma write_TOGGLE w :
  let s := negb (ledState (mach w)) in
  exec (deliver (Write "TOGGLE")) w =
  say (echo "TOGGLE" ++
       [SerialPrintln (if s then "LED toggled ON" else "LED toggled OFF")])
    {| mach := set_gpio_out (<[LED_PIN := level_of s]> (gpio_out (mach w)))
                 (set_ledState s (set_gatt_value "TOGGLE" (mach w)));
       clock := clock w; trace := trace w |}.
Proof.
  destruct w as [m t tr]. unfold say, exec; simpl. by rewrite <- !app_assoc.
Qed.

Lemma write_STATUS w :
  let status := status_text (ledState (mach w)) in
  exec (deliver (Write "STATUS")) w =
  say (echo "STATUS" ++
       [Notify status; SerialPrintln ("Status sent: " +:+ status)])
    {| mach := set_gatt_value status (mach w);
       clock := clock w; trace := trace w |}.
Proof.
  destruct w as [m t tr]. unfold say, exec; simpl. by rewrite <- !app_assoc.
Qed.

Lemma write_unrecognised p w :
  p <> "" -> ~ recognised p ->
  exec (deliver (Write p)) w =
  say (echo p)
    {| mach := set_gatt_value p (mach w); clock := clock w; trace := trace w |}.
Proof.
  intros Hne Hnr. unfold deliver. rewrite exec_seq.
  change (exec (setValue p) w)
    with {| mach := set_gatt_value p (mach w); clock := clock w; trace := trace w |}.
  set (w1 := {| mach := set_gatt_value p (mach w) |}).
  unfold onWrite. rewrite exec_bind.
  change (fst (getValue w1)) with p. change (snd (getValue w1)) with w1.
  destruct p as [|c p]; [done|].
  change (0 <? N.of_nat (String.length (String c p))) with true. cbv iota.
  rewrite exec_seq, exec_seq, for_each_char_print, exec_seq.
  destruct (String.eqb_spec (String c p) "ON") as [E|_];
    [exfalso; apply Hnr; unfold recognised; tauto|].
  destruct (String.eqb_spec (String c p) "OFF") as [E|_];
    [exfalso; apply Hnr; unfold recognised; tauto|].
  destruct (String.eqb_spec (String c p) "TOGGLE") as [E|_];
    [exfalso; apply Hnr; unfold recognised; tauto|].
  destruct (String.eqb_spec (String c p) "STATUS") as [E|_];
    [exfalso; apply Hnr; unfold recognised; tauto|].
  unfold say, echo, stamp, exec; simpl.
  rewrite map_app, <- !app_assoc. reflexivity.
Qed.

Lemma echo_has_no_notification p :
  omap (fun o => match o with Notify v => Some v | _ => None end) (echo p) = [].
Proof.
  unfold echo. cbn [omap list_omap]. rewrite omap_app. cbn [omap list_omap].
  rewrite app_nil_r.
  induction (String.list_ascii_of_string p) as [|c l IH]; [done|exact IH].
Qed.

Lemma echo_is_serial p :
  Forall (fun o => match o with SerialPrint _ | SerialPrintln _ => True | _ => False end)
    (echo p).
Proof.
  unfold echo. constructor; [done|]. apply Forall_app. split.
  - induction (String.list_ascii_of_string p); by constructor.
  - by constructor.
Qed.

Lemma unrecognised_examples :
  ("on" <> "" /\ ~ recognised "on") /\
  ("On" <> "" /\ ~ recognised "On") /\
  ("ON " <> "" /\ ~ recognised "ON ") /\
  ("FOO" <> "" /\ ~ recognised "FOO").
Proof. unfold recognised. repeat split; try done; intros [?|[?|[?|?]]]; done. Qed.

(** ** The write commands *)

(** C3: for every LED state, the payload STATUS leaves [ledState] and the GPIO
    registers as they were and sends exactly one notification, whose payload is
    the literal LED_ON when [ledState] is true and LED_OFF when it is false. *)
Theorem status_is_pure_read (w : World) :
  let w' := exec (deliver (Write "STATUS")) w in
  ledState (mach w') = ledState (mach w) /\
  gpio_out (mach w') = gpio_out (mach w) /\
  gpio_mode (mach w') = gpio_mode (mach w) /\
  pin_output (mach w') LED_PIN = pin_output (mach w) LED_PIN /\
  notifications (emitted w w') =
    [if ledState (mach w) then "LED_ON" else "LED_OFF"].
Proof.
  intros w'. subst w'. rewrite write_STATUS. cbv zeta.
  repeat split.
  erewrite emitted_app; [|reflexivity].
  rewrite notifications_stamp, omap_app, echo_has_no_notification.
  by destruct (ledState (mach w)).
Qed.

(** C4: a non-empty payload that is not exactly ON, OFF, TOGGLE or STATUS
    leaves [ledState], the GPIO registers and the connection flags as they
    were and sends no notification. *)
Theorem unrecognised_write_has_no_effect (p : string) (w : World) :
  p <> "" -> ~ recognised p ->
  let w' := exec (deliver (Write p)) w in
  ledState (mach w') = ledState (mach w) /\
  gpio_out (mach w') = gpio_out (mach w) /\
  gpio_mode (mach w') = gpio_mode (mach w) /\
  pin_output (mach w') LED_PIN = pin_output (mach w) LED_PIN /\
  deviceConnected (mach w') = deviceConnected (mach w) /\
  oldDeviceConnected (mach w') = oldDeviceConnected (mach w) /\
  notifications (emitted w w') = [].
Proof.
  intros Hne Hnr w'. subst w'. rewrite (write_unrecognised _ _ Hne Hnr).
  repeat split.
  erewrite emitted_app; [|reflexivity].
  by rewrite notifications_stamp, echo_has_no_notification.
Qed.

(** The variants on, On and ON followed by a space, written after [setup]. *)
Lemma unrecognised_write_has_no_effect_witness :
  Forall (fun p =>
      p <> "" /\ ~ recognised p /\
      let w' := exec (deliver (Write p)) boot in
      ledState (mach w') = ledState (mach boot) /\
      gpio_out (mach w') = gpio_out (mach boot) /\
      gpio_mode (mach w') = gpio_mode (mach boot) /\
      pin_output (mach w') LED_PIN = pin_output (mach boot) LED_PIN /\
      deviceConnected (mach w') = deviceConnected (mach boot) /\
      oldDeviceConnected (mach w') = oldDeviceConnected (mach boot) /\
      notifications (emitted boot w') = [])
    ["on"; "On"; "ON "].
Proof.
  destruct unrecognised_examples as ([H1 H1'] & [H2 H2'] & [H3 H3'] & _).
  constructor; [|constructor; [|constructor; [|constructor]]].
  - exact (conj H1 (conj H1' (unrecognised_write_has_no_effect "on" boot H1 H1'))).
  - exact (conj H2 (conj H2' (unrecognised_write_has_no_effect "On" boot H2 H2'))).
  - exact (conj H3 (conj H3' (unrecognised_write_has_no_effect "ON " boot H3 H3'))).
Defined.

(** C5: a write whose payload has length zero leaves [ledState] and the GPIO
    registers as they were and produces no output at all: no notification and
    no line on the serial log. *)
Theorem empty_write_is_ignored (p : string) (w : World) :
  String.length p = 0%nat ->
  let w' := exec (deliver (Write p)) w in
  ledState (mach w') = ledState (mach w) /\
  gpio_out (mach w') = gpio_out (mach w) /\
  gpio_mode (mach w') = gpio_mode (mach w) /\
  pin_output (mach w') LED_PIN = pin_output (mach w) LED_PIN /\
  emitted w w' = [] /\
  notifications (emitted w w') = [] /\
  serial_log (emitted w w') = [].
Proof.
  intros Hlen w'. destruct p as [|c p]; [|discriminate]. subst w'.
  rewrite write_empty. unfold emitted; simpl. rewrite drop_all. repeat split.
Qed.

Lemma empty_write_is_ignored_witness :
  let w' := exec (deliver (Write "")) boot in
  ledState (mach w') = ledState (mach boot) /\
  gpio_out (mach w') = gpio_out (mach boot) /\
  gpio_mode (mach w') = gpio_mode (mach boot) /\
  pin_output (mach w') LED_PIN = pin_output (mach boot) LED_PIN /\
  emitted boot w' = [] /\
  notifications (emitted boot w') = [] /\
  serial_log (emitted boot w') = [].
Proof. apply (empty_write_is_ignored "" boot). reflexivity. Defined.





(** ** The connection callbacks *)

Lemma deliver_links_last (bs : list bool) (b : bool) (w : World) :
  let w' := exec (deliver_links (bs ++ [b])) w in
  deviceConnected (mach w') = b /\
  oldDeviceConnected (mach w') = oldDeviceConnected (mach w) /\
  ledState (mach w') = ledState (mach w) /\
  gpio_mode (mach w') = gpio_mode (mach w) /\
  gpio_out (mach w') = gpio_out (mach w) /\
  gatt_value (mach w') = gatt_value (mach w).
Proof.
  revert w. induction bs as [|b0 bs IH]; intros w.
  - by destruct b.
  - cbn [app deliver_links]. cbv zeta. rewrite exec_bind.
    destruct (IH (snd (deliver (link_event b0) w))) as (H1 & H2 & H3 & H4 & H5 & H6).
    cbv zeta in *. rewrite H1, H2, H3, H4, H5, H6. by destruct b0.
Qed.

(** C8: whatever [deviceConnected] was, it is true after [onConnect] and
    false after [onDisconnect]; each callback leaves [oldDeviceConnected],
    [ledState], the pins and the characteristic as they were and prints its
    one log line.  Running a callback twice leaves the machine as running it
    once does, neither depends on the other having run, and after any
    succession of link events the flag is the one set by the last of them. *)
Theorem link_callbacks_idempotent (w : World) :
  deviceConnected (mach (exec onConnect w)) = true /\
  deviceConnected (mach (exec onDisconnect w)) = false /\
  mach (exec onConnect w) =
    {| deviceConnected := true;
       oldDeviceConnected := oldDeviceConnected (mach w);
       ledState := ledState (mach w);
       gpio_mode := gpio_mode (mach w);
       gpio_out := gpio_out (mach w);
       gatt_value := gatt_value (mach w) |} /\
  mach (exec onDisconnect w) =
    {| deviceConnected := false;
       oldDeviceConnected := oldDeviceConnected (mach w);
       ledState := ledState (mach w);
       gpio_mode := gpio_mode (mach w);
       gpio_out := gpio_out (mach w);
       gatt_value := gatt_value (mach w) |} /\
  emitted w (exec onConnect w) = [(clock w, SerialPrintln "Device connected")] /\
  emitted w (exec onDisconnect w) =
    [(clock w, SerialPrintln "Device disconnected")] /\
  mach (exec onConnect (exec onConnect w)) = mach (exec onConnect w) /\
  mach (exec onDisconnect (exec onDisconnect w)) = mach (exec onDisconnect w) /\
  mach (exec onConnect (exec onDisconnect w)) = mach (exec onConnect w) /\
  mach (exec onDisconnect (exec onConnect w)) = mach (exec onDisconnect w) /\
  (forall (bs : list bool) (b : bool),
     let w' := exec (deliver_links (bs ++ [b])) w in
     deviceConnected (mach w') = b /\
     oldDeviceConnected (mach w') = oldDeviceConnected (mach w) /\
     ledState (mach w') = ledState (mach w) /\
     gpio_mode (mach w') = gpio_mode (mach w) /\
     gpio_out (mach w') = gpio_out (mach w) /\
     gatt_value (mach w') = gatt_value (mach w)).
Proof.
  split; [reflexivity|]. split; [reflexivity|].
  split; [reflexivity|]. split; [reflexivity|].
  split; [by apply emitted_app|]. split; [by apply emitted_app|].
  split; [reflexivity|]. split; [reflexivity|].
  split; [reflexivity|]. split; [reflexivity|].
  intros bs b. apply deliver_links_last.
Qed.

(** ** The LED and its pin *)

Lemma led_mirrors_output m :
  led_mirrors m -> gpio_mode m !! LED_PIN = Some OUTPUT.
Proof.
  unfold led_mirrors, pin_output.
  destruct (gpio_mode m !! LED_PIN) as [[]|]; done.
Qed.

Lemma recognised_led_or_status p :
  recognised p <-> led_command p \/ p = "STATUS".
Proof. unfold recognised, led_command. tauto. Qed.

(** One write, seen from the LED. *)
Lemma write_led (p : string) (w : World) :
  gpio_mode (mach w) !! LED_PIN = Some OUTPUT ->
  let w' := exec (deliver (Write p)) w in
  gpio_mode (mach w') = gpio_mode (mach w) /\
  (led_command p ->
     ledState (mach w') = led_fold_step (ledState (mach w)) p /\
     led_mirrors (mach w')) /\
  (ledState (mach w') <> ledState (mach w) -> led_mirrors (mach w')) /\
  (led_mirrors (mach w) -> led_mirrors (mach w')).
Proof.
  intros Hmode w'. subst w'.
  assert (Hset : forall b v,
    led_mirrors (set_ledState b
      (set_gpio_out (<[LED_PIN := level_of b]> (gpio_out (mach w)))
         (set_gatt_value v (mach w))))).
  { intros b v. unfold led_mirrors, pin_output; simpl.
    rewrite Hmode. apply lookup_insert_eq. }
  destruct (payload_cases p) as [->|[Hrec|[Hne Hnr]]].
  - rewrite write_empty. split; [done|]. split; [|split]; [| done | done].
    intros [?|[?|?]]; discriminate.
  - destruct Hrec as [-> | [-> | [-> | ->]]].
    + rewrite write_ON. split; [done|].
      split; [|split]; intros; try split; try reflexivity; apply (Hset true).
    + rewrite write_OFF. split; [done|].
      split; [|split]; intros; try split; try reflexivity; apply (Hset false).
    + rewrite write_TOGGLE. cbv zeta. split; [done|].
      split; [|split]; intros; try split; try reflexivity; apply Hset.
    + rewrite write_STATUS. cbv zeta. split; [done|]. split; [|split]; [| done | done].
      intros [?|[?|?]]; discriminate.
  - rewrite (write_unrecognised _ _ Hne Hnr). split; [done|].
    split; [|split]; [| done | done].
    intros Hled. exfalso. apply Hnr, recognised_led_or_status. by left.
Qed.

Lemma write_all_led (cmds : list string) (w : World) :
  Forall led_command cmds ->
  led_mirrors (mach w) ->
  let w' := exec (write_all cmds) w in
  ledState (mach w') = fold_left led_fold_step cmds (ledState (mach w)) /\
  led_mirrors (mach w').
Proof.
  intros Hall. revert w. induction Hall as [|p cmds Hp _ IH]; intros w Hinv.
  - by split.
  - cbn [write_all fold_left]. cbv zeta. rewrite exec_seq.
    destruct (write_led p w (led_mirrors_output _ Hinv)) as (_ & Hstep & _).
    destruct (Hstep Hp) as [Hs Hm].
    destruct (IH _ Hm) as [IH1 IH2]. split; [|exact IH2].
    rewrite IH1. by rewrite Hs.
Qed.

Lemma observe_lookup (cmds : list string) (w0 : World) (k : nat) (w : World) :
  observe cmds w0 !! k = Some w -> w = exec (write_all (take k cmds)) w0.
Proof.
  revert w0 k. induction cmds as [|p cmds IH]; intros w0 [|k] H; simpl in H.
  - by inversion H.
  - done.
  - by inversion H.
  - cbn [take write_all]. rewrite exec_seq. by apply IH.
Qed.

Lemma observe_length (cmds : list string) (w0 : World) :
  length (observe cmds w0) = S (length cmds).
Proof.
  revert w0. induction cmds as [|p cmds IH]; intros w0; [done|].
  cbn [observe length]. by rewrite IH.
Qed.

Lemma boot_led_mirrors : led_mirrors (mach boot).
Proof. reflexivity. Qed.

(** C1: for every finite sequence of ON, OFF and TOGGLE payloads written after
    [setup], the final [ledState] is the left fold of the sequence over false
    (ON gives true, OFF gives false, TOGGLE negates), and at every observation
    point (before the first write and after each write) [ledState] is the fold
    of the writes so far and the LED pin outputs the level of [ledState]. *)
Theorem led_follows_command_fold (cmds : list string) :
  Forall led_command cmds ->
  ledState (mach (exec (write_all cmds) boot)) =
    fold_left led_fold_step cmds false /\
  length (observe cmds boot) = S (length cmds) /\
  forall (k : nat) (w : World),
    observe cmds boot !! k = Some w ->
    ledState (mach w) = fold_left led_fold_step (take k cmds) false /\
    pin_output (mach w) LED_PIN = Some (level_of (ledState (mach w))).
Proof.
  intros Hall. split; [|split].
  - apply (write_all_led cmds boot Hall boot_led_mirrors).
  - apply observe_length.
  - intros k w Hk. apply observe_lookup in Hk. subst w.
    apply (write_all_led (take k cmds) boot); [|exact boot_led_mirrors].
    by apply Forall_take.
Qed.

Lemma led_follows_command_fold_witness :
  ledState (mach (exec (write_all ["TOGGLE"; "ON"; "OFF"; "TOGGLE"]) boot)) = true /\
  forall (k : nat) (w : World),
    observe ["TOGGLE"; "ON"; "OFF"; "TOGGLE"] boot !! k = Some w ->
    ledState (mach w) =
      fold_left led_fold_step (take k ["TOGGLE"; "ON"; "OFF"; "TOGGLE"]) false /\
    pin_output (mach w) LED_PIN = Some (level_of (ledState (mach w))).
Proof.
  assert (H : Forall led_command ["TOGGLE"; "ON"; "OFF"; "TOGGLE"]).
  { unfold led_command.
    constructor; [tauto|constructor; [tauto|constructor; [tauto|constructor; [tauto|constructor]]]]. }
  destruct (led_follows_command_fold _ H) as (H1 & _ & H3).
  split; [exact H1|exact H3].
Defined.

(** ** Callbacks running inside a delay *)

Lemma callback_frame_refl w : callback_frame w w.
Proof.
  split; [lia|done| |done]. exists []. by rewrite app_nil_r.
Qed.

Lemma callback_frame_trans w1 w2 w3 :
  callback_frame w1 w2 -> callback_frame w2 w3 -> callback_frame w1 w3.
Proof.
  intros [Hc1 Ho1 (d1 & Ht1 & Ha1) Hl1] [Hc2 Ho2 (d2 & Ht2 & Ha2) Hl2].
  split; [lia|congruence| |tauto].
  exists (d1 ++ d2). split.
  - by rewrite Ht2, Ht1, app_assoc.
  - unfold advertising_times in *. by rewrite omap_app, Ha1, Ha2.
Qed.

Lemma advertising_times_stamp t outs :
  Forall (fun o => o <> StartAdvertising) outs ->
  advertising_times (stamp t outs) = [].
Proof.
  unfold advertising_times, stamp. induction 1 as [|o outs Ho _ IH]; [done|].
  destruct o; try done; cbn [map omap list_omap snd]; by rewrite IH.
Qed.

Lemma echo_has_no_advertising p :
  Forall (fun o => o <> StartAdvertising) (echo p).
Proof.
  eapply Forall_impl; [apply echo_is_serial|].
  intros o Ho ->. exact Ho.
Qed.

Lemma say_frame outs m w :
  Forall (fun o => o <> StartAdvertising) outs ->
  oldDeviceConnected m = oldDeviceConnected (mach w) ->
  (led_mirrors (mach w) -> led_mirrors m) ->
  callback_frame w
    (say outs {| mach := m; clock := clock w; trace := trace w |}).
Proof.
  intros Houts Hold Hled. split; simpl; [lia|done| |done].
  eexists. split; [reflexivity|]. by apply advertising_times_stamp.
Qed.

Lemma write_keeps_link p w :
  deviceConnected (mach (exec (deliver (Write p)) w)) = deviceConnected (mach w).
Proof.
  destruct (payload_cases p) as [->|[Hrec|[Hne Hnr]]].
  - by rewrite write_empty.
  - destruct Hrec as [-> | [-> | [-> | ->]]].
    + by rewrite write_ON.
    + by rewrite write_OFF.
    + by rewrite write_TOGGLE.
    + by rewrite write_STATUS.
  - by rewrite (write_unrecognised _ _ Hne Hnr).
Qed.

Lemma write_frame p w : callback_frame w (exec (deliver (Write p)) w).
Proof.
  assert (Hled : led_mirrors (mach w) ->
                 led_mirrors (mach (exec (deliver (Write p)) w))).
  { intros H. by apply (write_led p w (led_mirrors_output _ H)). }
  revert Hled. destruct (payload_cases p) as [->|[Hrec|[Hne Hnr]]].
  - intros Hled. rewrite write_empty in *. split; simpl; [lia|done| |done].
    exists []. by rewrite app_nil_r.
  - assert (Hline : forall o : Output,
              o <> StartAdvertising ->
              Forall (fun o => o <> StartAdvertising) (echo p ++ [o])).
    { intros o Ho. apply Forall_app. split; [apply echo_has_no_advertising|].
      by constructor. }
    destruct Hrec as [-> | [-> | [-> | ->]]].
    + rewrite write_ON. intros Hled. by apply say_frame; [apply Hline|..].
    + rewrite write_OFF. intros Hled. by apply say_frame; [apply Hline|..].
    + rewrite write_TOGGLE. cbv zeta. intros Hled.
      by apply say_frame; [apply Hline|..].
    + rewrite write_STATUS. cbv zeta. intros Hled.
      apply say_frame; [|done|done].
      apply Forall_app. split; [apply echo_has_no_advertising|].
      by repeat constructor.
  - rewrite (write_unrecognised _ _ Hne Hnr). intros Hled.
    by apply say_frame; [apply echo_has_no_advertising|..].
Qed.

Lemma deliver_frame ev w : callback_frame w (exec (deliver ev) w).
Proof.
  destruct ev as [| |p]; [| |apply write_frame].
  - split; simpl; [lia|done| |done]. by eexists.
  - split; simpl; [lia|done| |done]. by eexists.
Qed.

Lemma exec_deliver_all_cons gap ev rest w :
  exec (deliver_all ((gap, ev) :: rest)) w =
  exec (deliver_all rest)
    (exec (deliver ev)
       {| mach := mach w; clock := clock w + gap; trace := trace w |}).
Proof.
  cbn [deliver_all]. rewrite exec_bind. cbn [now fst snd].
  by rewrite !exec_seq.
Qed.

Lemma deliver_all_frame evs w : callback_frame w (exec (deliver_all evs) w).
Proof.
  revert w. induction evs as [|[gap ev] evs IH]; intros w.
  - apply callback_frame_refl.
  - rewrite exec_deliver_all_cons.
    eapply callback_frame_trans; [|apply IH].
    eapply callback_frame_trans; [|apply deliver_frame].
    split; simpl; [lia|done| |done]. exists []. by rewrite app_nil_r.
Qed.

Lemma deliver_all_no_connect evs w :
  Forall (fun a => is_connect (snd a) = false) evs ->
  deviceConnected (mach w) = false ->
  deviceConnected (mach (exec (deliver_all evs) w)) = false.
Proof.
  intros Hall. revert w. induction Hall as [|[gap ev] evs Hev _ IH]; intros w Hdc.
  - exact Hdc.
  - rewrite exec_deliver_all_cons. apply IH.
    destruct ev as [| |p]; [discriminate|reflexivity|].
    by rewrite write_keeps_link.
Qed.

Lemma deliver_all_link_quiet evs w :
  Forall (fun a => is_link_event (snd a) = false) evs ->
  deviceConnected (mach (exec (deliver_all evs) w)) = deviceConnected (mach w).
Proof.
  intros Hall. revert w. induction Hall as [|[gap ev] evs Hev _ IH]; intros w.
  - reflexivity.
  - rewrite exec_deliver_all_cons, IH.
    destruct ev as [| |p]; [discriminate|discriminate|].
    by rewrite write_keeps_link.
Qed.

(** ** The delays and the two branches of [loop] *)

Lemma exec_delay ms iv w :
  exec (delay ms iv) w =
  let w1 := exec (deliver_all (arrivals iv)) w in
  {| mach := mach w1;
     clock := N.max (clock w1) (clock w + ms) + lateness iv;
     trace := trace w1 |}.
Proof.
  unfold delay. rewrite exec_bind. cbn [now fst snd].
  rewrite exec_seq, exec_bind. reflexivity.
Qed.

Lemma delay_frame ms iv w : callback_frame w (exec (delay ms iv) w).
Proof.
  rewrite exec_delay. cbv zeta.
  destruct (deliver_all_frame (arrivals iv) w) as [Hc Ho Ht Hl].
  split; simpl; [lia|done|done|done].
Qed.

Lemma delay_elapsed ms iv w : clock w + ms <= clock (exec (delay ms iv) w).
Proof. rewrite exec_delay. simpl. lia. Qed.

Lemma exec_handle_disconnection_taken settle w :
  deviceConnected (mach w) = false ->
  oldDeviceConnected (mach w) = true ->
  exec (handle_disconnection settle) w =
  let w1 := exec (delay 500 settle) w in
  {| mach := set_oldDeviceConnected (deviceConnected (mach w1)) (mach w1);
     clock := clock w1;
     trace := trace w1 ++ [(clock w1, StartAdvertising);
                           (clock w1, SerialPrintln "Start advertising")] |}.
Proof.
  intros Hdc Hodc. unfold handle_disconnection.
  rewrite exec_bind. cbn [read fst snd]. rewrite exec_bind. cbn [read fst snd].
  rewrite Hdc, Hodc. cbn [negb andb]. rewrite exec_seq.
  destruct (exec (delay 500 settle) w) as [m1 t1 tr1].
  unfold exec; simpl. by rewrite <- app_assoc.
Qed.

Lemma exec_handle_disconnection_skipped settle w :
  negb (deviceConnected (mach w)) && oldDeviceConnected (mach w) = false ->
  exec (handle_disconnection settle) w = w.
Proof.
  intros H. unfold handle_disconnection.
  rewrite exec_bind. cbn [read fst snd]. rewrite exec_bind. cbn [read fst snd].
  by rewrite H.
Qed.

Lemma exec_handle_connection_skipped w :
  deviceConnected (mach w) && negb (oldDeviceConnected (mach w)) = false ->
  exec handle_connection w = w.
Proof.
  intros H. unfold handle_connection.
  rewrite exec_bind. cbn [read fst snd]. rewrite exec_bind. cbn [read fst snd].
  by rewrite H.
Qed.

Lemma exec_handle_connection_taken w :
  deviceConnected (mach w) && negb (oldDeviceConnected (mach w)) = true ->
  exec handle_connection w =
  {| mach := set_oldDeviceConnected (deviceConnected (mach w)) (mach w);
     clock := clock w; trace := trace w |}.
Proof.
  intros H. unfold handle_connection.
  rewrite exec_bind. cbn [read fst snd]. rewrite exec_bind. cbn [read fst snd].
  by rewrite H.
Qed.

Lemma exec_loop settle idle w :
  exec (loop settle idle) w =
  exec (delay 10 idle) (exec handle_connection (exec (handle_disconnection settle) w)).
Proof. unfold loop. by rewrite !exec_seq. Qed.

Lemma exec_loops_cons settle idle rest w :
  exec (loops ((settle, idle) :: rest)) w =
  exec (loops rest) (exec (loop settle idle) w).
Proof. cbn [loops]. by rewrite exec_seq. Qed.

Lemma advertising_times_app a b :
  advertising_times (a ++ b) = advertising_times a ++ advertising_times b.
Proof. unfold advertising_times. apply omap_app. Qed.

Lemma handle_disconnection_led settle w :
  led_mirrors (mach w) -> led_mirrors (mach (exec (handle_disconnection settle) w)).
Proof.
  intros Hled.
  destruct (negb (deviceConnected (mach w)) && oldDeviceConnected (mach w)) eqn:E.
  - apply andb_true_iff in E as [Hdc Hodc]. apply negb_true_iff in Hdc.
    rewrite (exec_handle_disconnection_taken _ _ Hdc Hodc). cbv zeta.
    by apply (frame_led _ _ (delay_frame 500 settle w)).
  - by rewrite (exec_handle_disconnection_skipped _ _ E).
Qed.

Lemma handle_connection_led w :
  led_mirrors (mach w) -> led_mirrors (mach (exec handle_connection w)).
Proof.
  intros Hled.
  destruct (deviceConnected (mach w) && negb (oldDeviceConnected (mach w))) eqn:E.
  - by rewrite (exec_handle_connection_taken _ E).
  - by rewrite (exec_handle_connection_skipped _ E).
Qed.

Lemma perform_led op w :
  led_mirrors (mach w) -> led_mirrors (mach (exec (perform op) w)).
Proof.
  intros Hled. destruct op as [ev|settle idle]; simpl.
  - by apply (frame_led _ _ (deliver_frame ev w)).
  - rewrite exec_loop. apply (frame_led _ _ (delay_frame _ _ _)).
    by apply handle_connection_led, handle_disconnection_led.
Qed.

Lemma perform_all_led ops w :
  led_mirrors (mach w) -> led_mirrors (mach (exec (perform_all ops) w)).
Proof.
  revert w. induction ops as [|op ops IH]; intros w Hled; [done|].
  cbn [perform_all]. rewrite exec_seq. by apply IH, perform_led.
Qed.

(** C2: the pin mirrors [ledState] after [setup] (flag false, pin driven low),
    every operation (a callback or a [loop] iteration, with whatever callbacks
    run during its delays) keeps it so, hence it holds at every observation
    point of every run; and a callback that changes [ledState] has written the
    matching level to the pin by the time it returns. *)
Theorem led_mirror_invariant :
  (ledState (mach boot) = false /\
   pin_output (mach boot) LED_PIN = Some LOW /\
   led_mirrors (mach boot)) /\
  (forall (op : Operation) (w : World),
     led_mirrors (mach w) -> led_mirrors (mach (exec (perform op) w))) /\
  (forall ops : list Operation,
     led_mirrors (mach (exec (perform_all ops) boot))) /\
  (forall (ev : Event) (w : World),
     gpio_mode (mach w) !! LED_PIN = Some OUTPUT ->
     ledState (mach (exec (deliver ev) w)) <> ledState (mach w) ->
     pin_output (mach (exec (deliver ev) w)) LED_PIN =
       Some (level_of (ledState (mach (exec (deliver ev) w))))).
Proof.
  split; [by repeat split|]. split; [exact perform_led|]. split.
  - intros ops. apply perform_all_led, boot_led_mirrors.
  - intros [| |p] w Hmode Hchg; [done|done|].
    destruct (write_led p w Hmode) as (_ & _ & Hpair & _). exact (Hpair Hchg).
Qed.

Lemma led_mirror_invariant_witness :
  led_mirrors (mach (exec (perform (Callback (Write "TOGGLE"))) boot)) /\
  pin_output (mach (exec (deliver (Write "ON")) boot)) LED_PIN = Some HIGH.
Proof.
  destruct led_mirror_invariant as (_ & Hstep & _ & Hpair). split.
  - apply Hstep. reflexivity.
  - apply (Hpair (Write "ON") boot); [reflexivity|discriminate].
Defined.

(** ** Reconnection handling in [loop] *)

(** An iteration that starts with the link down and the previous flag up. *)
Lemma disconnect_iteration settle idle w :
  deviceConnected (mach w) = false ->
  oldDeviceConnected (mach w) = true ->
  let w1 := exec (delay 500 settle) w in
  let w' := exec (loop settle idle) w in
  (exists d t, trace w' = trace w ++ d /\ advertising_times d = [t] /\
               clock w + 500 <= t) /\
  oldDeviceConnected (mach w') = deviceConnected (mach w1) /\
  mach w' =
    mach (exec (deliver_all (arrivals idle))
            {| mach := set_oldDeviceConnected (deviceConnected (mach w1)) (mach w1);
               clock := clock w1;
               trace := trace w1 ++ [(clock w1, StartAdvertising);
                                     (clock w1, SerialPrintln "Start advertising")] |}).
Proof.
  intros Hdc Hodc w1 w'. subst w'. rewrite exec_loop.
  rewrite (exec_handle_disconnection_taken _ _ Hdc Hodc). cbv zeta. fold w1.
  set (w2 := {| mach := set_oldDeviceConnected _ _ |}).
  rewrite (exec_handle_connection_skipped w2) by apply andb_negb_r.
  destruct (delay_frame 500 settle w) as [_ _ (d1 & Ht1 & Ha1) _]. fold w1 in Ht1.
  destruct (delay_frame 10 idle w2) as [_ Ho3 (d3 & Ht3 & Ha3) _].
  split; [|split].
  - exists (d1 ++ [(clock w1, StartAdvertising);
                   (clock w1, SerialPrintln "Start advertising")] ++ d3), (clock w1).
    split; [|split].
    + rewrite Ht3. subst w2. cbn [trace]. rewrite Ht1. by rewrite <- !app_assoc.
    + rewrite !advertising_times_app, Ha1, Ha3. reflexivity.
    + apply delay_elapsed.
  - rewrite Ho3. reflexivity.
  - rewrite exec_delay. reflexivity.
Qed.

(** An iteration that starts with both flags down and sees no connect. *)
Lemma idle_iteration settle idle w :
  deviceConnected (mach w) = false ->
  oldDeviceConnected (mach w) = false ->
  no_connect idle ->
  let w' := exec (loop settle idle) w in
  callback_frame w w' /\
  deviceConnected (mach w') = false /\ oldDeviceConnected (mach w') = false.
Proof.
  intros Hdc Hodc Hidle w'. subst w'. rewrite exec_loop.
  rewrite exec_handle_disconnection_skipped by (by rewrite Hdc, Hodc).
  rewrite exec_handle_connection_skipped by (by rewrite Hdc, Hodc).
  pose proof (delay_frame 10 idle w) as Hf. split; [exact Hf|]. split.
  - rewrite exec_delay. cbv zeta. cbn [mach].
    by apply deliver_all_no_connect.
  - by rewrite (frame_old _ _ Hf).
Qed.

Lemma idle_iterations rest w :
  deviceConnected (mach w) = false ->
  oldDeviceConnected (mach w) = false ->
  Forall (fun it => no_connect (snd it)) rest ->
  callback_frame w (exec (loops rest) w).
Proof.
  intros Hdc Hodc Hall. revert w Hdc Hodc.
  induction Hall as [|[settle idle] rest Hit _ IH]; intros w Hdc Hodc.
  - apply callback_frame_refl.
  - rewrite exec_loops_cons.
    destruct (idle_iteration settle idle w Hdc Hodc Hit) as (Hf & Hdc' & Hodc').
    eapply callback_frame_trans; [exact Hf|]. by apply IH.
Qed.

(** An iteration that starts with both flags up and sees no link event. *)
Lemma connected_iteration settle idle w :
  deviceConnected (mach w) = true ->
  oldDeviceConnected (mach w) = true ->
  link_quiet idle ->
  let w' := exec (loop settle idle) w in
  deviceConnected (mach w') = true /\ oldDeviceConnected (mach w') = true.
Proof.
  intros Hdc Hodc Hidle w'. subst w'. rewrite exec_loop.
  rewrite exec_handle_disconnection_skipped by (by rewrite Hdc, Hodc).
  rewrite exec_handle_connection_skipped by (by rewrite Hdc, Hodc).
  split.
  - rewrite exec_delay. cbv zeta. cbn [mach].
    by rewrite deliver_all_link_quiet.
  - by rewrite (frame_old _ _ (delay_frame 10 idle w)).
Qed.

Lemma connected_iterations rest w :
  deviceConnected (mach w) = true ->
  oldDeviceConnected (mach w) = true ->
  Forall (fun it => link_quiet (snd it)) rest ->
  let w' := exec (loops rest) w in
  deviceConnected (mach w') = true /\ oldDeviceConnected (mach w') = true.
Proof.
  intros Hdc Hodc Hall. revert w Hdc Hodc.
  induction Hall as [|[settle idle] rest Hit _ IH]; intros w Hdc Hodc.
  - by split.
  - cbv zeta. rewrite exec_loops_cons.
    destruct (connected_iteration settle idle w Hdc Hodc Hit) as [Hdc' Hodc'].
    by apply IH.
Qed.

Example link_lost_flags :
  deviceConnected (mach link_lost) = false /\
  oldDeviceConnected (mach link_lost) = true /\
  clock link_lost = 10.
Proof. vm_compute. auto. Qed.

(** C6: an iteration of [loop] that finds [deviceConnected] false and
    [oldDeviceConnected] true issues exactly one advertising request, stamped
    no earlier than 500 ms after the instant at which the iteration began; and
    when no connect event arrives, the flags are synchronised after that
    iteration, the following iterations issue none, and the whole run holds
    exactly that one request. *)
Theorem readvertise_once_after_settle
    (w : World) (settle idle : Interval) (rest : list (Interval * Interval)) :
  deviceConnected (mach w) = false ->
  oldDeviceConnected (mach w) = true ->
  let w1 := exec (loop settle idle) w in
  let w2 := exec (loops rest) w1 in
  (exists t, advertising_times (emitted w w1) = [t] /\ clock w + 500 <= t) /\
  (no_connect settle -> no_connect idle ->
   Forall (fun it => no_connect (snd it)) rest ->
   deviceConnected (mach w1) = false /\
   oldDeviceConnected (mach w1) = false /\
   advertising_times (emitted w1 w2) = [] /\
   exists t, advertising_times (emitted w w2) = [t] /\ clock w + 500 <= t).
Proof.
  intros Hdc Hodc w1 w2.
  destruct (disconnect_iteration settle idle w Hdc Hodc)
    as ((d & t & Ht & Ha & Hlate) & Hold & Hmach).
  fold w1 in Ht, Hold, Hmach. split.
  - exists t. by rewrite (emitted_app _ _ _ Ht).
  - intros Hsettle Hidle Hrest.
    assert (Hdown : deviceConnected (mach (exec (delay 500 settle) w)) = false).
    { rewrite exec_delay. cbv zeta. cbn [mach].
      by apply deliver_all_no_connect. }
    assert (Hdc1 : deviceConnected (mach w1) = false).
    { rewrite Hmach. apply deliver_all_no_connect; [exact Hidle|exact Hdown]. }
    assert (Hodc1 : oldDeviceConnected (mach w1) = false) by congruence.
    destruct (idle_iterations rest w1 Hdc1 Hodc1 Hrest)
      as [_ _ (d' & Ht' & Ha') _].
    fold w2 in Ht'. split; [exact Hdc1|]. split; [exact Hodc1|]. split.
    + by rewrite (emitted_app _ _ _ Ht').
    + exists t. split; [|exact Hlate].
      rewrite (emitted_app w w2 (d ++ d')).
      * by rewrite advertising_times_app, Ha, Ha', app_nil_r.
      * by rewrite Ht', Ht, app_assoc.
Qed.

Lemma readvertise_once_after_settle_witness :
  deviceConnected (mach link_lost) = false /\
  oldDeviceConnected (mach link_lost) = true /\
  (exists t,
     advertising_times (emitted link_lost (exec (loop busy quiet) link_lost)) = [t] /\
     clock link_lost + 500 <= t) /\
  advertising_times
    (emitted (exec (loop busy quiet) link_lost)
       (exec (loops [(quiet, quiet); (quiet, quiet)])
          (exec (loop busy quiet) link_lost))) = [].
Proof.
  assert (H1 : deviceConnected (mach link_lost) = false) by reflexivity.
  assert (H2 : oldDeviceConnected (mach link_lost) = true) by reflexivity.
  assert (Hq : no_connect quiet) by constructor.
  assert (Hb : no_connect busy) by (constructor; [reflexivity|constructor]).
  assert (Hr : Forall (fun it : Interval * Interval => no_connect (snd it))
                 [(quiet, quiet); (quiet, quiet)]).
  { constructor; [exact Hq|constructor; [exact Hq|constructor]]. }
  destruct (readvertise_once_after_settle link_lost busy quiet
              [(quiet, quiet); (quiet, quiet)] H1 H2) as [Hone Hrun].
  destruct (Hrun Hb Hq Hr) as (_ & _ & Hnone & _).
  split; [exact H1|]. split; [exact H2|]. split; [exact Hone|exact Hnone].
Defined.

Example readvertise_instant :
  advertising_times (emitted link_lost (exec (loop busy quiet) link_lost)) = [513] /\
  advertising_times (emitted link_lost (exec (loop reconnecting quiet) link_lost)) = [510].
Proof. vm_compute. auto. Qed.

(** C10: in an iteration that takes the disconnect branch, the value stored in
    [oldDeviceConnected] is [deviceConnected] as it stands when the settle
    delay is over.  If a client reconnected during that delay, the flag
    becomes true, the test of line 123 fails in this iteration, and as long as
    no further link event arrives both flags stay true, so no later iteration
    takes either branch. *)
Theorem reconnect_during_settle_skips_connect_branch
    (w : World) (settle idle : Interval) (rest : list (Interval * Interval)) :
  deviceConnected (mach w) = false ->
  oldDeviceConnected (mach w) = true ->
  let w1 := exec (delay 500 settle) w in
  let w2 := exec (handle_disconnection settle) w in
  oldDeviceConnected (mach w2) = deviceConnected (mach w1) /\
  deviceConnected (mach w2) = deviceConnected (mach w1) /\
  (deviceConnected (mach w1) = true ->
   oldDeviceConnected (mach w2) = true /\
   deviceConnected (mach w2) && negb (oldDeviceConnected (mach w2)) = false /\
   exec handle_connection w2 = w2 /\
   (link_quiet idle ->
    Forall (fun it => link_quiet (snd it)) rest ->
    forall k : nat,
      let wk := exec (loops (take k rest)) (exec (loop settle idle) w) in
      deviceConnected (mach wk) = true /\
      oldDeviceConnected (mach wk) = true /\
      (forall s, exec (handle_disconnection s) wk = wk) /\
      exec handle_connection wk = wk)).
Proof.
  intros Hdc Hodc w1 w2. subst w2.
  rewrite (exec_handle_disconnection_taken _ _ Hdc Hodc). cbv zeta. fold w1.
  cbn [mach set_oldDeviceConnected deviceConnected oldDeviceConnected].
  split; [reflexivity|]. split; [reflexivity|]. intros Hup.
  split; [exact Hup|]. split; [apply andb_negb_r|].
  split; [by apply exec_handle_connection_skipped, andb_negb_r|].
  intros Hidle Hrest k. set (wk := exec (loops (take k rest)) _).
  destruct (disconnect_iteration settle idle w Hdc Hodc) as (_ & Hold & Hmach).
  fold w1 in Hold, Hmach.
  assert (Hdc1 : deviceConnected (mach (exec (loop settle idle) w)) = true).
  { rewrite Hmach, deliver_all_link_quiet by exact Hidle. exact Hup. }
  assert (Hodc1 : oldDeviceConnected (mach (exec (loop settle idle) w)) = true)
    by congruence.
  destruct (connected_iterations (take k rest) _ Hdc1 Hodc1) as [Hdck Hodck];
    [by apply Forall_take|].
  fold wk in Hdck, Hodck. split; [exact Hdck|]. split; [exact Hodck|]. split.
  - intros s. apply exec_handle_disconnection_skipped. by rewrite Hdck, Hodck.
  - apply exec_handle_connection_skipped. by rewrite Hdck, Hodck.
Qed.

Lemma reconnect_during_settle_skips_connect_branch_witness :
  deviceConnected (mach link_lost) = false /\
  oldDeviceConnected (mach link_lost) = true /\
  deviceConnected (mach (exec (delay 500 reconnecting) link_lost)) = true /\
  oldDeviceConnected (mach (exec (handle_disconnection reconnecting) link_lost)) = true /\
  exec handle_connection (exec (handle_disconnection reconnecting) link_lost) =
    exec (handle_disconnection reconnecting) link_lost.
Proof.
  assert (H1 : deviceConnected (mach link_lost) = false) by reflexivity.
  assert (H2 : oldDeviceConnected (mach link_lost) = true) by reflexivity.
  assert (H3 : deviceConnected (mach (exec (delay 500 reconnecting) link_lost)) = true)
    by reflexivity.
  destruct (reconnect_during_settle_skips_connect_branch link_lost reconnecting
              quiet [] H1 H2) as (_ & _ & Hre).
  destruct (Hre H3) as (Hold & _ & Hskip & _).
  split; [exact H1|]. split; [exact H2|]. split; [exact H3|].
  split; [exact Hold|exact Hskip].
Defined.

(** * Further properties of the sketch *)

(** ** [setup] from any state *)

Lemma exec_setup w :
  exec setup w =
  say [SerialBegin 115200;
       SerialPrintln "Starting ESP32 BLE LED Control";
       BLEInit "ESP32_LED_Controller"; CreateServer;
       CreateService SERVICE_UUID;
       CreateCharacteristic CHARACTERISTIC_UUID
         [PROPERTY_READ; PROPERTY_WRITE; PROPERTY_NOTIFY];
       AddDescriptor2902; ServiceStart; AddServiceUUID SERVICE_UUID;
       SetScanResponse false; SetMinPreferred 0; StartAdvertising;
       SerialPrintln "Waiting for a client connection to notify..."]
    {| mach := set_gatt_value "Hello World"
                 (set_gpio_out (<[LED_PIN := LOW]> (gpio_out (mach w)))
                    (set_gpio_mode (<[LED_PIN := OUTPUT]> (gpio_mode (mach w)))
                       (mach w)));
       clock := clock w; trace := trace w |}.
Proof.
  destruct w as [m t tr]. unfold say, exec; simpl. by rewrite <- !app_assoc.
Qed.

(** X1: whatever the state on entry, [setup] makes the LED pin an output that
    drives LOW and stores Hello World in the characteristic, but it assigns
    none of the three flags; so the pin mirrors [ledState] after [setup]
    exactly when [ledState] was false on entry.  It asks for advertising once
    and sends no notification. *)
Theorem setup_drives_led_low (w : World) :
  let w' := exec setup w in
  pin_output (mach w') LED_PIN = Some LOW /\
  gatt_value (mach w') = "Hello World" /\
  ledState (mach w') = ledState (mach w) /\
  deviceConnected (mach w') = deviceConnected (mach w) /\
  oldDeviceConnected (mach w') = oldDeviceConnected (mach w) /\
  (led_mirrors (mach w') <-> ledState (mach w) = false) /\
  advertising_times (emitted w w') = [clock w] /\
  notifications (emitted w w') = [].
Proof.
  intros w'. subst w'. rewrite exec_setup.
  assert (Hpin : forall v tr,
    pin_output (mach (say v
      {| mach := set_gatt_value "Hello World"
                   (set_gpio_out (<[LED_PIN := LOW]> (gpio_out (mach w)))
                      (set_gpio_mode (<[LED_PIN := OUTPUT]> (gpio_mode (mach w)))
                         (mach w)));
         clock := clock w; trace := tr |})) LED_PIN = Some LOW).
  { intros v tr. unfold pin_output; simpl.
    rewrite lookup_insert_eq. apply lookup_insert_eq. }
  split; [apply Hpin|]. split; [reflexivity|]. split; [reflexivity|].
  split; [reflexivity|]. split; [reflexivity|]. split; [|split].
  - unfold led_mirrors. rewrite Hpin. cbn [say mach ledState set_gatt_value].
    cbn [set_gpio_out set_gpio_mode ledState].
    destruct (ledState (mach w)); simpl; split; congruence.
  - erewrite emitted_app; [|reflexivity]. reflexivity.
  - erewrite emitted_app; [|reflexivity]. reflexivity.
Qed.

Lemma setup_drives_led_low_witness :
  pin_output (mach (exec setup power_on)) LED_PIN = Some LOW /\
  led_mirrors (mach (exec setup power_on)) /\
  ~ led_mirrors (mach (exec setup (exec (deliver (Write "ON")) boot))).
Proof.
  destruct (setup_drives_led_low power_on) as (H1 & _ & _ & _ & _ & H6 & _).
  destruct (setup_drives_led_low (exec (deliver (Write "ON")) boot))
    as (_ & _ & _ & _ & _ & H6' & _).
  split; [exact H1|]. split.
  - apply H6. reflexivity.
  - intros H. apply H6' in H. discriminate H.
Defined.

(** ** Sequences of arbitrary writes *)

Lemma not_recognised_eqb p :
  ~ recognised p ->
  String.eqb p "ON" = false /\ String.eqb p "OFF" = false /\
  String.eqb p "TOGGLE" = false /\ String.eqb p "STATUS" = false.
Proof.
  intros Hnr. unfold recognised in Hnr.
  repeat split; apply String.eqb_neq; intros ->; tauto.
Qed.

Lemma append_cons c (a b : string) : String c a +:+ b = String c (a +:+ b).
Proof. reflexivity. Qed.

Lemma append_empty_r (s : string) : s +:+ "" = s.
Proof. induction s as [|c s IH]; [done|]. by rewrite append_cons, IH. Qed.

Lemma append_assoc (a b c : string) : (a +:+ b) +:+ c = a +:+ (b +:+ c).
Proof. induction a as [|x a IH]; [done|]. by rewrite !append_cons, IH. Qed.

Lemma printed_text_app a b :
  printed_text (a ++ b) = printed_text a +:+ printed_text b.
Proof.
  induction a as [|[t o] a IH]; [done|].
  destruct o; cbn [app printed_text]; try exact IH.
  by rewrite IH, append_assoc.
Qed.

Lemma printed_text_chars t q :
  printed_text (map (fun c => (t, SerialPrint (String c EmptyString)))
                  (String.list_ascii_of_string q)) = q.
Proof.
  induction q as [|c q IH]; [done|].
  cbn [String.list_ascii_of_string map printed_text].
  by rewrite IH.
Qed.

Lemma printed_text_silent t outs :
  Forall (fun o => match o with SerialPrint _ => False | _ => True end) outs ->
  printed_text (stamp t outs) = "".
Proof.
  unfold stamp. induction 1 as [|o outs Ho _ IH]; [done|].
  destruct o; try done; exact IH.
Qed.

(** One write of any payload, with everything it produces. *)
Lemma write_summary (p : string) (w : World) :
  let w' := exec (deliver (Write p)) w in
  ledState (mach w') = led_fold_step (ledState (mach w)) p /\
  (gpio_out (mach w') = gpio_out (mach w) \/
   gpio_out (mach w') =
     <[LED_PIN := level_of (ledState (mach w'))]> (gpio_out (mach w))) /\
  gatt_value (mach w') =
    (if String.eqb p "STATUS" then status_text (ledState (mach w)) else p) /\
  exists outs,
    trace w' = trace w ++ stamp (clock w) outs /\
    notifications (stamp (clock w) outs) =
      (if String.eqb p "STATUS" then [status_text (ledState (mach w))] else []) /\
    printed_text (stamp (clock w) outs) = p.
Proof.
  assert (Hecho : forall t q extra,
    Forall (fun o => match o with SerialPrint _ => False | _ => True end) extra ->
    printed_text (stamp t (echo q ++ extra)) = q).
  { intros t q extra Hex. unfold echo, stamp. cbn [app map printed_text].
    rewrite <- app_assoc, map_app, map_map, printed_text_app.
    rewrite printed_text_chars.
    change (map (pair t) ([SerialPrintln ""] ++ extra))
      with (stamp t (SerialPrintln "" :: extra)).
    rewrite printed_text_silent; [apply append_empty_r|by constructor]. }
  assert (Hnote : forall t q extra,
    notifications (stamp t (echo q ++ extra)) =
    omap (fun o => match o with Notify v => Some v | _ => None end) extra).
  { intros t q extra.
    by rewrite notifications_stamp, omap_app, echo_has_no_notification. }
  intros w'. subst w'.
  destruct (payload_cases p) as [->|[Hrec|[Hne Hnr]]].
  - rewrite write_empty. split; [done|]. split; [by left|]. split; [done|].
    exists []. cbn [stamp map]. by rewrite app_nil_r.
  - destruct Hrec as [-> | [-> | [-> | ->]]].
    + rewrite write_ON. split; [done|]. split; [by right|]. split; [done|].
      eexists. split; [reflexivity|]. split; [apply Hnote|].
      apply Hecho. by repeat constructor.
    + rewrite write_OFF. split; [done|]. split; [by right|]. split; [done|].
      eexists. split; [reflexivity|]. split; [apply Hnote|].
      apply Hecho. by repeat constructor.
    + rewrite write_TOGGLE. cbv zeta.
      split; [done|]. split; [by right|]. split; [done|].
      eexists. split; [reflexivity|]. split; [apply Hnote|].
      apply Hecho. by repeat constructor.
    + rewrite write_STATUS. cbv zeta.
      split; [done|]. split; [by left|]. split; [done|].
      eexists. split; [reflexivity|]. split; [apply Hnote|].
      apply Hecho. by repeat constructor.
  - rewrite (write_unrecognised _ _ Hne Hnr).
    destruct (not_recognised_eqb p Hnr) as (E1 & E2 & E3 & E4).
    split; [unfold led_fold_step; by rewrite E1, E2, E3|].
    split; [by left|]. split; [by rewrite E4|].
    exists (echo p). split; [reflexivity|]. rewrite E4. split.
    + by rewrite notifications_stamp, echo_has_no_notification.
    + rewrite <- (app_nil_r (echo p)). by apply Hecho.
Qed.

Lemma exec_ret {A} (a : A) w : exec (ret a) w = w.
Proof. reflexivity. Qed.

Lemma notifications_app a b :
  notifications (a ++ b) = notifications a ++ notifications b.
Proof. unfold notifications. apply omap_app. Qed.

Lemma led_mirrors_latch m :
  led_mirrors m -> gpio_out m !! LED_PIN = Some (level_of (ledState m)).
Proof.
  unfold led_mirrors, pin_output.
  destruct (gpio_mode m !! LED_PIN) as [[]|]; done.
Qed.

(** X2: for every sequence of payloads whatsoever (LED commands, STATUS,
    unknown tokens and empty writes, in any order), started in any state in
    which the pin mirrors [ledState], the final [ledState] is the fold of the
    sequence, where every payload other than ON, OFF and TOGGLE leaves the
    state alone, and the pin still mirrors it. *)
Theorem any_writes_fold (cmds : list string) (w : World) :
  led_mirrors (mach w) ->
  let w' := exec (write_all cmds) w in
  ledState (mach w') = fold_left led_fold_step cmds (ledState (mach w)) /\
  led_mirrors (mach w').
Proof.
  revert w. induction cmds as [|p cmds IH]; intros w Hinv; [by split|].
  cbn [write_all fold_left]. cbv zeta. rewrite exec_seq.
  destruct (write_summary p w) as (Hs & _).
  destruct (write_led p w (led_mirrors_output _ Hinv)) as (_ & _ & _ & Hkeep).
  destruct (IH _ (Hkeep Hinv)) as [IH1 IH2]. split; [|exact IH2].
  by rewrite IH1, Hs.
Qed.

Lemma any_writes_fold_witness :
  ledState (mach (exec (write_all ["ON"; "STATUS"; "foo"; ""; "TOGGLE"; "on"]) boot))
    = false /\
  led_mirrors
    (mach (exec (write_all ["ON"; "STATUS"; "foo"; ""; "TOGGLE"; "on"]) boot)).
Proof.
  exact (any_writes_fold ["ON"; "STATUS"; "foo"; ""; "TOGGLE"; "on"] boot
           boot_led_mirrors).
Defined.

Lemma write_all_notifications (cmds : list string) (w : World) :
  exists d, trace (exec (write_all cmds) w) = trace w ++ d /\
            notifications d = status_replies cmds (ledState (mach w)).
Proof.
  revert w. induction cmds as [|p cmds IH]; intros w.
  - exists []. by rewrite app_nil_r.
  - cbn [write_all status_replies]. rewrite exec_seq.
    destruct (write_summary p w) as (Hs & _ & _ & outs & Ht & Hn & _).
    destruct (IH (exec (deliver (Write p)) w)) as (d & Ht' & Hn').
    exists (stamp (clock w) outs ++ d). split.
    + by rewrite Ht', Ht, app_assoc.
    + by rewrite notifications_app, Hn, Hn', Hs.
Qed.

(** X3: the notifications produced by a sequence of arbitrary writes are
    exactly one status string per STATUS payload, in order, each giving the
    LED state reached by the writes before it; no other payload notifies. *)
Theorem writes_notify_status_only (cmds : list string) (w : World) :
  notifications (emitted w (exec (write_all cmds) w)) =
  status_replies cmds (ledState (mach w)).
Proof.
  destruct (write_all_notifications cmds w) as (d & Ht & Hn).
  by rewrite (emitted_app _ _ _ Ht).
Qed.

(** X4: the bytes sent with [Serial.print] while a write is handled are the
    payload itself, byte for byte, for every payload (none for an empty one);
    the fixed lines all go through [println]. *)
Theorem echo_reproduces_payload (p : string) (w : World) :
  printed_text (emitted w (exec (deliver (Write p)) w)) = p.
Proof.
  destruct (write_summary p w) as (_ & _ & _ & outs & Ht & _ & Hp).
  by rewrite (emitted_app _ _ _ Ht).
Qed.

Lemma deliver_stored_value w :
  exec (deliver (Write (gatt_value (mach w)))) w = exec onWrite w.
Proof.
  unfold deliver. rewrite exec_seq. f_equal. by destruct w as [[] ? ?].
Qed.

(** X5: [onWrite] stores into the characteristic only in the STATUS branch:
    when the stored value is anything else, [onWrite] leaves it as it is.
    So after a write of any payload other than STATUS the characteristic
    holds that payload, and Hello World is gone after the first write of any
    kind. *)
Theorem characteristic_changes_only_on_status :
  (forall w : World,
     gatt_value (mach w) <> "STATUS" ->
     gatt_value (mach (exec onWrite w)) = gatt_value (mach w)) /\
  (forall (p : string) (w : World),
     p <> "STATUS" -> gatt_value (mach (exec (deliver (Write p)) w)) = p) /\
  (forall (p : string) (w : World),
     p <> "Hello World" ->
     gatt_value (mach (exec (deliver (Write p)) w)) <> "Hello World").
Proof.
  assert (H : forall (p : string) (w : World),
            p <> "STATUS" -> gatt_value (mach (exec (deliver (Write p)) w)) = p).
  { intros p w Hp. destruct (write_summary p w) as (_ & _ & Hv & _).
    rewrite Hv. by apply String.eqb_neq in Hp as ->. }
  split; [|split; [exact H|]].
  - intros w Hw. rewrite <- deliver_stored_value. by apply H.
  - intros p w Hp. destruct (write_summary p w) as (_ & _ & Hv & _).
    rewrite Hv. destruct (String.eqb p "STATUS"); [|exact Hp].
    by destruct (ledState (mach w)).
Qed.

Lemma characteristic_changes_only_on_status_witness :
  gatt_value (mach (exec onWrite boot)) = "Hello World" /\
  gatt_value (mach (exec (deliver (Write "ON")) boot)) = "ON".
Proof.
  destruct characteristic_changes_only_on_status as (H1 & H2 & _). split.
  - apply (H1 boot). discriminate.
  - apply (H2 "ON" boot). discriminate.
Defined.

(** X6: two TOGGLE writes in a row put [ledState] and the whole output latch
    back as they were, in any state in which the pin mirrors [ledState]. *)
Theorem toggle_twice_restores (w : World) :
  led_mirrors (mach w) ->
  let w' := exec (write_all ["TOGGLE"; "TOGGLE"]) w in
  ledState (mach w') = ledState (mach w) /\
  gpio_out (mach w') = gpio_out (mach w) /\
  gpio_mode (mach w') = gpio_mode (mach w) /\
  pin_output (mach w') LED_PIN = pin_output (mach w) LED_PIN.
Proof.
  intros Hinv w'. subst w'. pose proof (led_mirrors_latch _ Hinv) as Hlatch.
  cbn [write_all]. rewrite !exec_seq, !exec_ret.
  rewrite (write_TOGGLE w). cbv zeta. rewrite write_TOGGLE. cbv zeta.
  cbn [say mach clock trace ledState gpio_out gpio_mode
       set_gpio_out set_ledState set_gatt_value].
  rewrite negb_involutive, insert_insert_eq, (insert_id _ _ _ Hlatch).
  repeat split.
Qed.

Lemma toggle_twice_restores_witness :
  ledState (mach (exec (write_all ["TOGGLE"; "TOGGLE"]) boot)) = false /\
  gpio_out (mach (exec (write_all ["TOGGLE"; "TOGGLE"]) boot)) = gpio_out (mach boot).
Proof.
  destruct (toggle_twice_restores boot boot_led_mirrors) as (H1 & H2 & _).
  split; [exact H1|exact H2].
Defined.

Lemma write_gpio_mode p w :
  gpio_mode (mach (exec (deliver (Write p)) w)) = gpio_mode (mach w).
Proof.
  destruct (payload_cases p) as [->|[Hrec|[Hne Hnr]]].
  - by rewrite write_empty.
  - destruct Hrec as [-> | [-> | [-> | ->]]].
    + by rewrite write_ON.
    + by rewrite write_OFF.
    + by rewrite write_TOGGLE.
    + by rewrite write_STATUS.
  - by rewrite (write_unrecognised _ _ Hne Hnr).
Qed.

(** X7: ON and OFF are absolute.  Written after any other payload, ON leaves
    [ledState] true and the LED latch HIGH, OFF leaves [ledState] false and
    the LED latch LOW, the rest of the latch being what it was; so each ends
    exactly as it would have without the payload before it, each is
    idempotent, and where the LED pin is an output the pin is at that level. *)
Theorem on_off_are_absolute (p : string) (w : World) :
  (ledState (mach (exec (write_all [p; "ON"]) w)) = true /\
   gpio_out (mach (exec (write_all [p; "ON"]) w)) !! LED_PIN = Some HIGH /\
   gpio_out (mach (exec (write_all [p; "ON"]) w)) =
     <[LED_PIN := HIGH]> (gpio_out (mach w)) /\
   gpio_out (mach (exec (write_all [p; "ON"]) w)) =
     gpio_out (mach (exec (deliver (Write "ON")) w))) /\
  (ledState (mach (exec (write_all [p; "OFF"]) w)) = false /\
   gpio_out (mach (exec (write_all [p; "OFF"]) w)) !! LED_PIN = Some LOW /\
   gpio_out (mach (exec (write_all [p; "OFF"]) w)) =
     <[LED_PIN := LOW]> (gpio_out (mach w)) /\
   gpio_out (mach (exec (write_all [p; "OFF"]) w)) =
     gpio_out (mach (exec (deliver (Write "OFF")) w))) /\
  (gpio_mode (mach w) !! LED_PIN = Some OUTPUT ->
   pin_output (mach (exec (write_all [p; "ON"]) w)) LED_PIN = Some HIGH /\
   pin_output (mach (exec (write_all [p; "OFF"]) w)) LED_PIN = Some LOW).
Proof.
  assert (Hon : gpio_out (mach (exec (write_all [p; "ON"]) w)) =
                <[LED_PIN := HIGH]> (gpio_out (mach w))).
  { cbn [write_all]. rewrite !exec_seq, !exec_ret, write_ON.
    cbn [say mach gpio_out set_gpio_out set_ledState set_gatt_value].
    destruct (write_summary p w) as (_ & [Hg|Hg] & _); rewrite Hg;
      rewrite ?insert_insert_eq; done. }
  assert (Hoff : gpio_out (mach (exec (write_all [p; "OFF"]) w)) =
                 <[LED_PIN := LOW]> (gpio_out (mach w))).
  { cbn [write_all]. rewrite !exec_seq, !exec_ret, write_OFF.
    cbn [say mach gpio_out set_gpio_out set_ledState set_gatt_value].
    destruct (write_summary p w) as (_ & [Hg|Hg] & _); rewrite Hg;
      rewrite ?insert_insert_eq; done. }
  assert (Hmode : forall q, gpio_mode (mach (exec (write_all [p; q]) w)) =
                            gpio_mode (mach w)).
  { intros q. cbn [write_all]. rewrite !exec_seq, exec_ret.
    by rewrite !write_gpio_mode. }
  split; [|split].
  - split; [|split; [|split]].
    + cbn [write_all]. by rewrite !exec_seq, !exec_ret, write_ON.
    + rewrite Hon. apply lookup_insert_eq.
    + exact Hon.
    + rewrite Hon. by rewrite write_ON.
  - split; [|split; [|split]].
    + cbn [write_all]. by rewrite !exec_seq, !exec_ret, write_OFF.
    + rewrite Hoff. apply lookup_insert_eq.
    + exact Hoff.
    + rewrite Hoff. by rewrite write_OFF.
  - intros Hout. unfold pin_output. rewrite !Hmode, Hout, Hon, Hoff.
    by rewrite !lookup_insert_eq.
Qed.

Lemma on_off_are_absolute_witness :
  pin_output (mach (exec (write_all ["TOGGLE"; "ON"]) boot)) LED_PIN = Some HIGH /\
  pin_output (mach (exec (write_all ["TOGGLE"; "OFF"]) boot)) LED_PIN = Some LOW.
Proof.
  destruct (on_off_are_absolute "TOGGLE" boot) as (_ & _ & Hpin).
  apply Hpin. reflexivity.
Defined.

(** ** Lifting a property of the callbacks to [loop] and to whole runs *)

Section Lifting.

Variable ok : Event -> bool.
Variable P : World -> Prop.

Hypothesis P_deliver :
  forall ev w, ok ev = true -> P w -> P (exec (deliver ev) w).
Hypothesis P_clock :
  forall w t, P w -> P {| mach := mach w; clock := t; trace := trace w |}.
Hypothesis P_old :
  forall w b, P w ->
    P {| mach := set_oldDeviceConnected b (mach w); clock := clock w;
         trace := trace w |}.
Hypothesis P_restart :
  forall w, P w ->
    P {| mach := mach w; clock := clock w;
         trace := trace w ++ [(clock w, StartAdvertising);
                              (clock w, SerialPrintln "Start advertising")] |}.

Lemma lift_deliver_all evs w :
  Forall (fun a => ok (snd a) = true) evs -> P w -> P (exec (deliver_all evs) w).
Proof.
  intros Hall. revert w. induction Hall as [|[gap ev] evs Hev _ IH]; intros w Hw.
  - exact Hw.
  - rewrite exec_deliver_all_cons. apply IH, P_deliver; [exact Hev|].
    by apply P_clock.
Qed.

Lemma lift_delay ms iv w :
  interval_within ok iv -> P w -> P (exec (delay ms iv) w).
Proof.
  intros Hiv Hw. rewrite exec_delay. cbv zeta.
  by apply P_clock, lift_deliver_all.
Qed.

Lemma lift_handle_disconnection settle w :
  interval_within ok settle -> P w -> P (exec (handle_disconnection settle) w).
Proof.
  intros Hiv Hw. destruct (link_was_lost (mach w)) eqn:E; unfold link_was_lost in E.
  - apply andb_true_iff in E as [Hdc Hodc]. apply negb_true_iff in Hdc.
    rewrite (exec_handle_disconnection_taken _ _ Hdc Hodc). cbv zeta.
    apply (P_old _ _ (P_restart _ (lift_delay 500 settle w Hiv Hw))).
  - by rewrite (exec_handle_disconnection_skipped _ _ E).
Qed.

Lemma lift_handle_connection w : P w -> P (exec handle_connection w).
Proof.
  intros Hw.
  destruct (deviceConnected (mach w) && negb (oldDeviceConnected (mach w))) eqn:E.
  - rewrite (exec_handle_connection_taken _ E). by apply P_old.
  - by rewrite (exec_handle_connection_skipped _ E).
Qed.

Lemma lift_perform op w : operation_within ok op -> P w -> P (exec (perform op) w).
Proof.
  destruct op as [ev|settle idle]; simpl.
  - apply P_deliver.
  - intros [Hs Hi] Hw. rewrite exec_loop.
    by apply lift_delay, lift_handle_connection, lift_handle_disconnection.
Qed.

Lemma lift_perform_all ops w :
  Forall (operation_within ok) ops -> P w -> P (exec (perform_all ops) w).
Proof.
  intros Hall. revert w. induction Hall as [|op ops Hop _ IH]; intros w Hw.
  - exact Hw.
  - cbn [perform_all]. rewrite exec_seq. by apply IH, lift_perform.
Qed.

End Lifting.

Lemma any_operation_within ops : Forall (operation_within any_event) ops.
Proof.
  assert (Hiv : forall iv, interval_within any_event iv).
  { intros iv. unfold interval_within. by apply Forall_forall. }
  apply Forall_forall. intros [ev|settle idle] _; simpl; [done|by split].
Qed.

(** X8: no callback and no [loop] iteration ever changes a pin mode or drives
    a pin other than the LED pin: over any run, the pin modes and the output
    latch of every other pin stay as they were. *)
Theorem only_led_pin_is_driven (ops : list Operation) (w : World) (pin : N) :
  pin <> LED_PIN ->
  gpio_out (mach (exec (perform_all ops) w)) !! pin = gpio_out (mach w) !! pin /\
  gpio_mode (mach (exec (perform_all ops) w)) = gpio_mode (mach w).
Proof.
  intros Hpin.
  apply (lift_perform_all any_event
           (fun w' => gpio_out (mach w') !! pin = gpio_out (mach w) !! pin /\
                      gpio_mode (mach w') = gpio_mode (mach w)));
    [| done | done | done | apply any_operation_within | done].
  intros [| |p] w' _ [Hout Hmode]; [done|done|].
  rewrite write_gpio_mode. split; [|exact Hmode].
  destruct (write_summary p w') as (_ & [Hg|Hg] & _); rewrite Hg; [exact Hout|].
  by rewrite lookup_insert_ne.
Qed.

Lemma only_led_pin_is_driven_witness :
  gpio_out (mach (exec (perform_all
      [Callback (Write "ON"); Iteration busy quiet; Callback (Write "TOGGLE")])
      boot)) !! 4 = None.
Proof.
  apply (only_led_pin_is_driven
           [Callback (Write "ON"); Iteration busy quiet; Callback (Write "TOGGLE")]
           boot 4).
  discriminate.
Defined.

(** X9: link events and [loop] have no hold on the LED: over any run whose
    callbacks are all connects and disconnects, [ledState], the output latch
    and the characteristic stay as they were and no notification is sent. *)
Theorem link_events_leave_led_alone (ops : list Operation) (w : World) :
  Forall (operation_within is_link_event) ops ->
  let w' := exec (perform_all ops) w in
  ledState (mach w') = ledState (mach w) /\
  gpio_out (mach w') = gpio_out (mach w) /\
  gatt_value (mach w') = gatt_value (mach w) /\
  notifications (emitted w w') = [].
Proof.
  intros Hops w'. subst w'.
  enough (H : (fun w' =>
            (ledState (mach w') = ledState (mach w) /\
             gpio_out (mach w') = gpio_out (mach w) /\
             gatt_value (mach w') = gatt_value (mach w)) /\
            exists d, trace w' = trace w ++ d /\ notifications d = [])
          (exec (perform_all ops) w)).
  { destruct H as ((H1 & H2 & H3) & d & Ht & Hn).
    by rewrite (emitted_app _ _ _ Ht). }
  apply (lift_perform_all is_link_event); [| | | |exact Hops|].
  - intros [| |p] w' Hok [Hm (d & Ht & Hn)]; [| |discriminate].
    + split; [exact Hm|]. exists (d ++ [(clock w', SerialPrintln "Device connected")]).
      split; [simpl; by rewrite Ht, app_assoc|].
      by rewrite notifications_app, Hn.
    + split; [exact Hm|].
      exists (d ++ [(clock w', SerialPrintln "Device disconnected")]).
      split; [simpl; by rewrite Ht, app_assoc|].
      by rewrite notifications_app, Hn.
  - intros w' t H. exact H.
  - intros w' b H. exact H.
  - intros w' [Hm (d & Ht & Hn)]. split; [exact Hm|].
    eexists. split; [simpl; by rewrite Ht, <- app_assoc|].
    by rewrite notifications_app, Hn.
  - split; [done|]. exists []. by rewrite app_nil_r.
Qed.

Lemma link_events_leave_led_alone_witness :
  ledState (mach (exec (perform_all
      [Callback Connect; Iteration quiet quiet; Callback Disconnect;
       Iteration reconnecting quiet]) boot)) = false /\
  notifications (emitted boot (exec (perform_all
      [Callback Connect; Iteration quiet quiet; Callback Disconnect;
       Iteration reconnecting quiet]) boot)) = [].
Proof.
  assert (Hq : interval_within is_link_event quiet) by constructor.
  assert (Hr : interval_within is_link_event reconnecting)
    by (constructor; [reflexivity|constructor]).
  assert (Hops : Forall (operation_within is_link_event)
            [Callback Connect; Iteration quiet quiet; Callback Disconnect;
             Iteration reconnecting quiet]).
  { constructor; [reflexivity|]. constructor; [by split|].
    constructor; [reflexivity|]. constructor; [by split|]. constructor. }
  destruct (link_events_leave_led_alone _ boot Hops) as (H1 & _ & _ & H4).
  split; [exact H1|exact H4].
Defined.

(** ** One iteration of [loop], whatever the flags *)

Lemma handle_connection_quiet w :
  trace (exec handle_connection w) = trace w /\
  clock (exec handle_connection w) = clock w /\
  deviceConnected (mach (exec handle_connection w)) = deviceConnected (mach w).
Proof.
  destruct (deviceConnected (mach w) && negb (oldDeviceConnected (mach w))) eqn:E.
  - by rewrite (exec_handle_connection_taken _ E).
  - by rewrite (exec_handle_connection_skipped _ E).
Qed.

Lemma checks_synchronise settle w :
  let w2 := exec handle_connection (exec (handle_disconnection settle) w) in
  oldDeviceConnected (mach w2) = deviceConnected (mach w2).
Proof.
  cbv zeta. destruct (link_was_lost (mach w)) eqn:E; unfold link_was_lost in E.
  - apply andb_true_iff in E as [Hdc Hodc]. apply negb_true_iff in Hdc.
    rewrite (exec_handle_disconnection_taken _ _ Hdc Hodc). cbv zeta.
    by rewrite exec_handle_connection_skipped by apply andb_negb_r.
  - rewrite (exec_handle_disconnection_skipped _ _ E).
    destruct (deviceConnected (mach w) && negb (oldDeviceConnected (mach w))) eqn:E'.
    + by rewrite (exec_handle_connection_taken _ E').
    + rewrite (exec_handle_connection_skipped _ E').
      by destruct (deviceConnected (mach w)), (oldDeviceConnected (mach w)).
Qed.

(** X10: once the two tests of an iteration are done, [oldDeviceConnected]
    equals [deviceConnected], whatever the flags were and whatever happened
    during the settle delay; if no link event arrives during the final 10 ms
    delay, the iteration ends with the two flags equal. *)
Theorem loop_synchronises_flags (w : World) (settle idle : Interval) :
  (let w2 := exec handle_connection (exec (handle_disconnection settle) w) in
   oldDeviceConnected (mach w2) = deviceConnected (mach w2)) /\
  (link_quiet idle ->
   oldDeviceConnected (mach (exec (loop settle idle) w)) =
   deviceConnected (mach (exec (loop settle idle) w))).
Proof.
  split; [apply checks_synchronise|]. intros Hidle. rewrite exec_loop.
  set (w2 := exec handle_connection _).
  rewrite (frame_old _ _ (delay_frame 10 idle w2)).
  rewrite exec_delay. cbv zeta. cbn [mach].
  rewrite (deliver_all_link_quiet _ _ Hidle). apply checks_synchronise.
Qed.

Lemma loop_synchronises_flags_witness :
  oldDeviceConnected (mach (exec (loop reconnecting busy) link_lost)) =
  deviceConnected (mach (exec (loop reconnecting busy) link_lost)).
Proof.
  apply (loop_synchronises_flags link_lost reconnecting busy).
  constructor; [reflexivity|constructor].
Defined.

(** X11: an iteration of [loop] asks for advertising exactly when it finds
    the link lost ([deviceConnected] false, [oldDeviceConnected] true), and
    then once; in every other case it asks for none, whatever callbacks run
    during its delay. *)
Theorem advertising_only_when_link_lost (w : World) (settle idle : Interval) :
  advertising_requests (emitted w (exec (loop settle idle) w)) =
  if link_was_lost (mach w) then 1%nat else 0%nat.
Proof.
  unfold advertising_requests.
  destruct (link_was_lost (mach w)) eqn:E; unfold link_was_lost in E.
  - apply andb_true_iff in E as [Hdc Hodc]. apply negb_true_iff in Hdc.
    destruct (disconnect_iteration settle idle w Hdc Hodc)
      as ((d & t & Ht & Ha & _) & _).
    by rewrite (emitted_app _ _ _ Ht), Ha.
  - rewrite exec_loop, (exec_handle_disconnection_skipped _ _ E).
    destruct (handle_connection_quiet w) as (Htr & _).
    destruct (delay_frame 10 idle (exec handle_connection w))
      as [_ _ (d & Ht & Ha) _].
    rewrite Htr in Ht. by rewrite (emitted_app _ _ _ Ht), Ha.
Qed.

(** X12: on the clock of the model, an iteration of [loop] lasts at least
    10 ms, and at least 510 ms when it finds the link lost. *)
Theorem loop_duration (w : World) (settle idle : Interval) :
  clock w + (if link_was_lost (mach w) then 510 else 10)
  <= clock (exec (loop settle idle) w).
Proof.
  rewrite exec_loop.
  pose proof (delay_elapsed 10 idle
                (exec handle_connection (exec (handle_disconnection settle) w))) as H10.
  destruct (handle_connection_quiet (exec (handle_disconnection settle) w))
    as (_ & Hc & _).
  rewrite Hc in H10.
  destruct (link_was_lost (mach w)) eqn:E; unfold link_was_lost in E.
  - apply andb_true_iff in E as [Hdc Hodc]. apply negb_true_iff in Hdc.
    rewrite (exec_handle_disconnection_taken _ _ Hdc Hodc) in *. cbv zeta in *.
    cbn [clock] in H10. pose proof (delay_elapsed 500 settle w). lia.
  - rewrite (exec_handle_disconnection_skipped _ _ E) in *. lia.
Qed.

(** ** Advertising requests against lost links *)

Lemma advertising_requests_app a b :
  advertising_requests (a ++ b) =
  (advertising_requests a + advertising_requests b)%nat.
Proof.
  unfold advertising_requests. by rewrite advertising_times_app, length_app.
Qed.

Lemma disconnect_reports_app a b :
  disconnect_reports (a ++ b) = (disconnect_reports a + disconnect_reports b)%nat.
Proof.
  induction a as [|[t o] a IH]; [done|].
  destruct o; cbn [app disconnect_reports]; try exact IH.
  rewrite IH. lia.
Qed.

Lemma disconnect_reports_chars t l :
  disconnect_reports
    (map (pair t) (map (fun c => SerialPrint (String c EmptyString)) l)) = 0%nat.
Proof. induction l as [|c l IH]; [done|exact IH]. Qed.

Lemma disconnect_reports_echo t p extra :
  disconnect_reports (stamp t (echo p ++ extra)) =
  disconnect_reports (stamp t extra).
Proof.
  unfold echo, stamp. cbn [app map disconnect_reports].
  rewrite <- app_assoc, map_app, disconnect_reports_app, disconnect_reports_chars.
  reflexivity.
Qed.

Lemma write_reports p w :
  exists d, trace (exec (deliver (Write p)) w) = trace w ++ d /\
            disconnect_reports d = 0%nat /\ advertising_times d = [].
Proof.
  destruct (write_frame p w) as [_ _ (d & Ht & Ha) _].
  exists d. split; [exact Ht|]. split; [|exact Ha].
  revert Ht.
  destruct (payload_cases p) as [->|[Hrec|[Hne Hnr]]].
  - rewrite write_empty. cbn [trace]. intros Ht.
    rewrite <- (app_nil_r (trace w)) in Ht at 1.
    by apply app_inv_head in Ht as <-.
  - destruct Hrec as [-> | [-> | [-> | ->]]].
    + rewrite write_ON. cbn [say trace]. intros Ht.
      by apply app_inv_head in Ht as <-.
    + rewrite write_OFF. cbn [say trace]. intros Ht.
      by apply app_inv_head in Ht as <-.
    + rewrite write_TOGGLE. cbv zeta. cbn [say trace]. intros Ht.
      apply app_inv_head in Ht as <-.
      rewrite disconnect_reports_echo. by destruct (negb (ledState (mach w))).
    + rewrite write_STATUS. cbv zeta. cbn [say trace]. intros Ht.
      apply app_inv_head in Ht as <-.
      rewrite disconnect_reports_echo. by destruct (ledState (mach w)).
  - rewrite (write_unrecognised _ _ Hne Hnr). cbn [say trace]. intros Ht.
    apply app_inv_head in Ht as <-.
    rewrite <- (app_nil_r (echo p)). by rewrite disconnect_reports_echo.
Qed.

Lemma callback_counts_refl w : callback_counts w w.
Proof. unfold callback_counts. lia. Qed.

Lemma callback_counts_trans w1 w2 w3 :
  callback_counts w1 w2 -> callback_counts w2 w3 -> callback_counts w1 w3.
Proof. unfold callback_counts. lia. Qed.

Lemma deliver_counts ev w : callback_counts w (exec (deliver ev) w).
Proof.
  assert (Hz : forall t s, advertising_requests [(t, SerialPrintln s)] = 0%nat)
    by reflexivity.
  unfold callback_counts. destruct ev as [| |p].
  - cbn [deliver]. unfold onConnect, exec; simpl.
    rewrite advertising_requests_app, disconnect_reports_app, Hz. simpl.
    unfold owed, link_was_lost; simpl.
    destruct (negb (deviceConnected (mach w)) && oldDeviceConnected (mach w)); lia.
  - cbn [deliver]. unfold onDisconnect, exec; simpl.
    rewrite advertising_requests_app, disconnect_reports_app, Hz. simpl.
    unfold owed, link_was_lost; simpl.
    destruct (negb (deviceConnected (mach w)) && oldDeviceConnected (mach w)),
             (oldDeviceConnected (mach w)); simpl; lia.
  - destruct (write_reports p w) as (d & Ht & Hd & Ha).
    rewrite Ht, advertising_requests_app, disconnect_reports_app, Hd.
    unfold advertising_requests at 2. rewrite Ha.
    unfold owed, link_was_lost.
    rewrite write_keeps_link, (frame_old _ _ (write_frame p w)). simpl. lia.
Qed.

Lemma deliver_all_counts evs w : callback_counts w (exec (deliver_all evs) w).
Proof.
  revert w. induction evs as [|[gap ev] evs IH]; intros w.
  - apply callback_counts_refl.
  - rewrite exec_deliver_all_cons.
    eapply callback_counts_trans; [|apply IH].
    eapply callback_counts_trans; [|apply deliver_counts].
    unfold callback_counts. cbn [mach trace]. lia.
Qed.

Lemma delay_counts ms iv w : callback_counts w (exec (delay ms iv) w).
Proof.
  rewrite exec_delay. cbv zeta.
  pose proof (deliver_all_counts (arrivals iv) w) as H.
  unfold callback_counts in *. cbn [mach trace]. exact H.
Qed.

Lemma covered_after_callbacks w0 w w' :
  callback_counts w w' -> advertising_covered w0 w -> advertising_covered w0 w'.
Proof. unfold callback_counts, advertising_covered. lia. Qed.

Lemma loop_covered w0 settle idle w :
  advertising_covered w0 w -> advertising_covered w0 (exec (loop settle idle) w).
Proof.
  intros Hw. rewrite exec_loop.
  apply (covered_after_callbacks _ _ _ (delay_counts 10 idle _)).
  destruct (link_was_lost (mach w)) eqn:E.
  - pose proof E as E'. unfold link_was_lost in E'.
    apply andb_true_iff in E' as [Hdc Hodc]. apply negb_true_iff in Hdc.
    rewrite (exec_handle_disconnection_taken _ _ Hdc Hodc). cbv zeta.
    rewrite exec_handle_connection_skipped by apply andb_negb_r.
    destruct (delay_counts 500 settle w) as (Ha & Hd & _).
    unfold advertising_covered in *. cbn [trace mach].
    rewrite advertising_requests_app, disconnect_reports_app, Ha.
    unfold owed in *. rewrite E in Hw. unfold link_was_lost at 1.
    cbn [set_oldDeviceConnected deviceConnected oldDeviceConnected].
    rewrite andb_comm, andb_negb_r.
    assert (H1 : forall t s, advertising_requests
                   [(t, StartAdvertising); (t, SerialPrintln s)] = 1%nat)
      by reflexivity.
    rewrite H1. simpl. lia.
  - pose proof E as E'. unfold link_was_lost in E'.
    rewrite (exec_handle_disconnection_skipped _ _ E').
    destruct (deviceConnected (mach w) && negb (oldDeviceConnected (mach w))) eqn:E2.
    + rewrite (exec_handle_connection_taken _ E2).
      apply andb_true_iff in E2 as [Hdc _].
      unfold advertising_covered in *. cbn [trace mach].
      unfold owed in *. rewrite E in Hw. unfold link_was_lost at 1.
      cbn [set_oldDeviceConnected deviceConnected oldDeviceConnected].
      rewrite Hdc. simpl. lia.
    + by rewrite (exec_handle_connection_skipped _ E2).
Qed.

Lemma perform_all_covered w0 ops w :
  advertising_covered w0 w -> advertising_covered w0 (exec (perform_all ops) w).
Proof.
  revert w. induction ops as [|op ops IH]; intros w Hw; [exact Hw|].
  cbn [perform_all]. rewrite exec_seq. apply IH.
  destruct op as [ev|settle idle]; simpl.
  - apply (covered_after_callbacks _ _ _ (deliver_counts ev w) Hw).
  - by apply loop_covered.
Qed.

Lemma perform_all_extends ops w :
  exists d, trace (exec (perform_all ops) w) = trace w ++ d.
Proof.
  apply (lift_perform_all any_event (fun w' => exists d, trace w' = trace w ++ d)).
  - intros ev w' _ [d Ht].
    destruct (deliver_frame ev w') as [_ _ (d' & Ht' & _) _].
    exists (d ++ d'). by rewrite Ht', Ht, app_assoc.
  - intros w' t H. exact H.
  - intros w' b H. exact H.
  - intros w' [d Ht]. eexists. simpl. by rewrite Ht, <- app_assoc.
  - apply any_operation_within.
  - exists []. by rewrite app_nil_r.
Qed.

(** X13: [loop] never asks for advertising more often than the link was
    lost: over any run of callbacks and iterations, the advertising requests
    issued, plus the one still owed at the end, are at most the disconnects
    reported during the run plus the one owed at the start.  After [setup],
    whose own request is the first, the requests in the trace never exceed
    one plus the reported disconnects. *)
Theorem advertising_bounded_by_disconnects (ops : list Operation) :
  (forall w : World,
     let w' := exec (perform_all ops) w in
     advertising_requests (emitted w w') + owed (mach w')
     <= owed (mach w) + disconnect_reports (emitted w w'))%nat /\
  (advertising_requests (trace (exec (perform_all ops) boot))
   <= 1 + disconnect_reports (trace (exec (perform_all ops) boot)))%nat.
Proof.
  assert (Hcov : forall w, advertising_covered w (exec (perform_all ops) w)).
  { intros w. apply perform_all_covered. unfold advertising_covered. lia. }
  split.
  - intros w w'. subst w'. specialize (Hcov w).
    destruct (perform_all_extends ops w) as [d Ht].
    rewrite (emitted_app _ _ _ Ht). unfold advertising_covered in Hcov.
    rewrite Ht, advertising_requests_app, disconnect_reports_app in Hcov. lia.
  - specialize (Hcov boot). unfold advertising_covered in Hcov.
    change (advertising_requests (trace boot)) with 1%nat in Hcov.
    change (disconnect_reports (trace boot)) with 0%nat in Hcov.
    change (owed (mach boot)) with 0%nat in Hcov. lia.
Qed.
